(** * go-ceph [rados] package: the I/O context binding ([ioctx.go])

    A shallow embedding of the Go methods of [IOContext] that wrap the
    librados C client.  The C library is not part of the package: it is
    taken as a record of primitives acting on an abstract cluster state,
    and every Go method is a state-passing function over that record.
    Each call of the object and listing methods that crosses into C is
    logged, so that statements such as "no call is issued" or "the cursor
    is closed" are statements about the log. *)

From Stdlib Require Import ZArith NArith Lia Strings.Byte Strings.String List.
From stdpp Require Import base tactics option list numbers strings gmap.

Local Open Scope Z_scope.

(** ** Go values *)

Module Go.

(** Modelled from the spec: the type [RadosError] is declared in another
    file of the package; the spec describes it as the single error kind
    "wrapping the backend's native status code verbatim".  A Go [error]
    produced by this file is therefore either the nil interface or a
    [RadosError] carrying the code. *)
Inductive error : Type :=
| nil_error
| RadosError (code : Z).

(** The value carried by a panic that unwinds a Go function: the run-time
    error of an out-of-range index, or whatever a callback panicked with. *)
Inductive panic_value : Type :=
| IndexOutOfRange (index len : nat)
| PanicValue (v : string).

(** How the execution of a Go function ends.  [OutOfFuel] is not an exit:
    it says that the bounded unrolling of a [for] loop was too short. *)
Inductive result (A : Type) : Type :=
| Returns (a : A)
| Panics (p : panic_value)
| OutOfFuel.
Arguments Returns {A} a.
Arguments Panics {A} p.
Arguments OutOfFuel {A}.

Definition exited {A} (r : result A) : bool :=
  match r with OutOfFuel => false | _ => true end.

(** Go's [int] on a 64-bit platform (linux/amd64, where librados runs):
    the result of integer arithmetic is reduced to 64 bits, two's
    complement. *)
Definition int (z : Z) : Z := (z + 2 ^ 63) mod 2 ^ 64 - 2 ^ 63.

(** The largest number of bytes the run time hands out in one allocation
    on that platform. *)
Definition maxAlloc : Z := 2 ^ 48.

(** The run-time panic of [make] for a length it refuses. *)
Definition makeslice_panic : panic_value :=
  PanicValue "runtime error: makeslice: len out of range".

(** A slice of [n] zero bytes. *)
Definition zeros (n : nat) : list byte := replicate n x00.

(** [make([]byte, n)] for an [int] n: the panic for a negative length and
    for one beyond [maxAlloc], [n] zero bytes otherwise.  Whether the
    machine has that much memory is not modelled. *)
Definition make (n : Z) : result (list byte) :=
  if (n <? 0) || (maxAlloc <? n) then Panics makeslice_panic
  else Returns (zeros (Z.to_nat n)).

(** [&data[i]]: the memory from element [i] on, or the index panic. *)
Definition addr_of_index (data : list byte) (i : nat) : result (list byte) :=
  if decide (i < length data)%nat then Returns (drop i data)
  else Panics (IndexOutOfRange i (length data)).

(** A C callee writing [written] through a pointer to the start of [buf]:
    the slice keeps its length, the leading bytes are overwritten.  Bytes
    beyond the end of the buffer are dropped (in C that write is undefined
    behaviour; no primitive of a well-behaved library does it). *)
Definition poke (buf written : list byte) : list byte :=
  take (length buf) (written ++ drop (length written) buf).

(** [C.GoStringN(p, n)]: the first [n] bytes at [p] as a Go string.  The
    memory at [p] is the buffer and nothing else.  With a length beyond the
    buffer the C side reads out of bounds, which has no defined result;
    the value given here for that case is used in no statement. *)
Definition GoStringN (p : list byte) (n : Z) : string :=
  string_of_list_byte (take (Z.to_nat n) p).

(** [C.unsigned(n)] for a Go [int] n: reduction modulo 2^32. *)
Definition C_unsigned (n : N) : N := (n mod 2 ^ 32)%N.

End Go.
Export Go.

(** ** The C client library *)

(** Opaque handles of librados, as numbers. *)
Definition rados_ioctx_t := N.
Definition rados_list_ctx_t := N.
Definition rados_snap_t := N.

(** The primitives of librados that [ioctx.go] calls, over a cluster state
    [U].  A primitive returns the new state, what it stored through its
    out-pointers, and its [int] status.  Statuses are mathematical integers:
    the conversions [int(ret)] and [RadosError(ret)] from a C [int] widen and
    keep the value. *)
Record librados (U : Type) : Type := {
  rados_write : rados_ioctx_t -> string -> list byte -> N -> N -> U -> U * Z;
  rados_read : rados_ioctx_t -> string -> N -> N -> U -> U * (list byte * Z);
  rados_remove : rados_ioctx_t -> string -> U -> U * Z;
  rados_trunc : rados_ioctx_t -> string -> N -> U -> U * Z;
  rados_ioctx_get_pool_name : rados_ioctx_t -> N -> U -> U * (list byte * Z);
  rados_objects_list_open : rados_ioctx_t -> U -> U * (rados_list_ctx_t * Z);
  rados_objects_list_next : rados_list_ctx_t -> U -> U * (string * Z);
  rados_objects_list_close : rados_list_ctx_t -> U -> U;
  rados_ioctx_selfmanaged_snap_create : rados_ioctx_t -> U -> U * (rados_snap_t * Z)
}.
Arguments rados_write {U} _ _ _ _ _ _ _.
Arguments rados_read {U} _ _ _ _ _ _.
Arguments rados_remove {U} _ _ _ _.
Arguments rados_trunc {U} _ _ _ _ _.
Arguments rados_ioctx_get_pool_name {U} _ _ _ _.
Arguments rados_objects_list_open {U} _ _ _.
Arguments rados_objects_list_next {U} _ _ _.
Arguments rados_objects_list_close {U} _ _ _.
Arguments rados_ioctx_selfmanaged_snap_create {U} _ _ _.

(** What the log records: one entry per call into C, with the arguments
    passed, what the call stored through its out-pointers and the status it
    returned, and one entry per call of the visitor. *)
Inductive event : Type :=
| Ev_write (io : rados_ioctx_t) (oid : string) (data : list byte) (len off : N) (ret : Z)
| Ev_read (io : rados_ioctx_t) (oid : string) (len off : N) (written : list byte) (ret : Z)
| Ev_remove (io : rados_ioctx_t) (oid : string) (ret : Z)
| Ev_trunc (io : rados_ioctx_t) (oid : string) (size : N) (ret : Z)
| Ev_get_pool_name (io : rados_ioctx_t) (maxlen : N) (written : list byte) (ret : Z)
| Ev_list_open (io : rados_ioctx_t) (ctx : rados_list_ctx_t) (ret : Z)
| Ev_list_next (ctx : rados_list_ctx_t) (entry : string) (ret : Z)
| Ev_list_close (ctx : rados_list_ctx_t)
| Ev_listFn (oid : string)
| Ev_snap_create (io : rados_ioctx_t) (snap : rados_snap_t) (ret : Z).

(** [type IOContext struct { ioctx C.rados_ioctx_t }] *)
Record IOContext : Type := { ioctx : rados_ioctx_t }.

(** [type Snapshot C.rados_snap_t] *)
Definition Snapshot := rados_snap_t.

(** ** The binding *)

Section Binding.

Context {U : Type}.

(** The state a method runs in: the world outside the binding (the cluster
    and the caller's own memory) and the log of calls made so far. *)
Record state : Type := State { world : U; trace : list event }.

Definition M (A : Type) : Type := state -> state * result A.

Definition pure {A} (a : A) : M A := fun s => (s, Returns a).

Definition bind {A B} (m : M A) (k : A -> M B) : M B :=
  fun s =>
    match m s with
    | (s', Returns a) => k a s'
    | (s', Panics p) => (s', Panics p)
    | (s', OutOfFuel) => (s', OutOfFuel)
    end.

(** A computation that touches no state: a Go expression that may panic. *)
Definition eval {A} (r : result A) : M A := fun s => (s, r).

(** A call into C: run the primitive on the world, log it. *)
Definition ccall {A} (f : U -> U * A) (ev : A -> event) : M A :=
  fun s =>
    let (u, a) := f (world s) in
    (State u (trace s ++ [ev a]), Returns a).

(** [defer d] in front of a body: [d] runs when the function exits, by a
    return or by a panic, and the way the body ended is kept. *)
Definition defer {A} (d : M unit) (body : M A) : M A :=
  fun s =>
    match body s with
    | (s', OutOfFuel) => (s', OutOfFuel)
    | (s', r) => (fst (d s'), r)
    end.

Notation "x <- m ;; k" := (bind m (fun x => k))
  (at level 100, m at next level, right associativity).

Variable lib : librados U.

(** [C.CString(oid)] with its deferred [C.free] hands the C side a private
    copy of the object name; the name is passed by value here. *)

(** [func (ioctx *IOContext) Write(oid string, data []byte, offset uint64) error] *)
Definition Write (io : IOContext) (oid : string) (data : list byte) (offset : N)
  : M error :=
  p <- eval (addr_of_index data 0) ;;
  ret <- ccall (rados_write lib (ioctx io) oid p (N.of_nat (length data)) offset)
                (Ev_write (ioctx io) oid p (N.of_nat (length data)) offset) ;;
  if ret =? 0 then pure nil_error else pure (RadosError ret).

(** [func (ioctx *IOContext) Read(oid string, data []byte, offset uint64) (int, error)]

    The slice [data] is the caller's memory and the C side fills it: the
    contents it has when [Read] is over are returned next to the Go results. *)
Definition Read (io : IOContext) (oid : string) (data : list byte) (offset : N)
  : M (list byte * (Z * error)) :=
  if (length data =? 0)%nat then pure (data, (0, nil_error))
  else
    _ <- eval (addr_of_index data 0) ;;
    r <- ccall (rados_read lib (ioctx io) oid (N.of_nat (length data)) offset)
               (fun r => Ev_read (ioctx io) oid (N.of_nat (length data)) offset
                                 (fst r) (snd r)) ;;
    let '(written, ret) := r in
    if 0 <=? ret then pure (poke data written, (ret, nil_error))
    else pure (poke data written, (0, RadosError ret)).

(** [func (ioctx *IOContext) Delete(oid string) error] *)
Definition Delete (io : IOContext) (oid : string) : M error :=
  ret <- ccall (rados_remove lib (ioctx io) oid) (Ev_remove (ioctx io) oid) ;;
  if ret =? 0 then pure nil_error else pure (RadosError ret).

(** [func (ioctx *IOContext) Truncate(oid string, size uint64) error] *)
Definition Truncate (io : IOContext) (oid : string) (size : N) : M error :=
  ret <- ccall (rados_trunc lib (ioctx io) oid size) (Ev_trunc (ioctx io) oid size) ;;
  if ret =? 0 then pure nil_error else pure (RadosError ret).

(** [func (ioctx *IOContext) GetPoolName() (name string, err error)]

    The [for] loop, unrolled at most [fuel] times, on the current buffer. *)
Fixpoint GetPoolName_loop (fuel : nat) (io : IOContext) (buf : list byte)
  : M (string * error) :=
  match fuel with
  | O => eval OutOfFuel
  | S fuel' =>
    _ <- eval (addr_of_index buf 0) ;;
    r <- ccall (rados_ioctx_get_pool_name lib (ioctx io)
                  (C_unsigned (N.of_nat (length buf))))
               (fun r => Ev_get_pool_name (ioctx io)
                  (C_unsigned (N.of_nat (length buf))) (fst r) (snd r)) ;;
    let '(written, ret) := r in
    if ret =? -34 then
      buf' <- eval (make (int (Z.of_nat (length buf) * 2))) ;;
      GetPoolName_loop fuel' io buf'
    else if ret <? 0 then pure (""%string, RadosError ret)
    else pure (GoStringN (poke buf written) ret, nil_error)
  end.

Definition GetPoolName (fuel : nat) (io : IOContext) : M (string * error) :=
  buf <- eval (make 128) ;;
  GetPoolName_loop fuel io buf.

(** [type ObjectListFunc func(oid string)]: a Go closure.  It may change
    the world it captured, the cluster included, and it may panic
    ([Some v]).  The log is the log of the method that runs: it records
    that the visitor was called, not what the visitor did. *)
Definition ObjectListFunc : Type := string -> U -> U * option panic_value.

Definition call_listFn (listFn : ObjectListFunc) (oid : string) : M unit :=
  fun s =>
    let (u, p) := listFn oid (world s) in
    (State u (trace s ++ [Ev_listFn oid]),
     match p with None => Returns tt | Some v => Panics v end).

(** The [for] loop of [ListObjects] on an open cursor. *)
Fixpoint ListObjects_loop (fuel : nat) (listFn : ObjectListFunc)
    (ctx : rados_list_ctx_t) : M error :=
  match fuel with
  | O => eval OutOfFuel
  | S fuel' =>
    r <- ccall (rados_objects_list_next lib ctx)
               (fun r => Ev_list_next ctx (fst r) (snd r)) ;;
    let '(c_entry, ret) := r in
    if ret =? -2 then pure nil_error
    else if ret <? 0 then pure (RadosError ret)
    else _ <- call_listFn listFn c_entry ;; ListObjects_loop fuel' listFn ctx
  end.

Definition list_close (ctx : rados_list_ctx_t) : M unit :=
  ccall (fun u => (rados_objects_list_close lib ctx u, tt))
        (fun _ => Ev_list_close ctx).

(** [func (ioctx *IOContext) ListObjects(listFn ObjectListFunc) error]

    The [panic("invalid state")] behind the loop cannot be reached: the
    loop has no [break]. *)
Definition ListObjects (fuel : nat) (io : IOContext) (listFn : ObjectListFunc)
  : M error :=
  r <- ccall (rados_objects_list_open lib (ioctx io))
             (fun r => Ev_list_open (ioctx io) (fst r) (snd r)) ;;
  let '(ctx, ret) := r in
  if ret <? 0 then pure (RadosError ret)
  else defer (list_close ctx) (ListObjects_loop fuel listFn ctx).

(** [func (ioctx *IOContext) CreateManagedSnapshot()], returning a
    [*Snapshot] and an [error].

    A [*Snapshot] is [None] for the nil pointer and [Some v] for the
    address of a variable holding [v]. *)
Definition CreateManagedSnapshot (io : IOContext) : M (option Snapshot * error) :=
  r <- ccall (rados_ioctx_selfmanaged_snap_create lib (ioctx io))
             (fun r => Ev_snap_create (ioctx io) (fst r) (snd r)) ;;
  let '(snap, ret) := r in
  if ret <? 0 then pure (None, RadosError ret)
  else pure (Some snap, nil_error).

End Binding.

Arguments state U : clear implicits.
Arguments M U A : clear implicits.
Arguments ObjectListFunc U : clear implicits.

(** ** Two libraries to run the binding on *)

(** A library that answers every call with the same status and stores
    nothing through its out-pointers. *)
Definition const_lib (r : Z) : librados unit := {|
  rados_write := fun _ _ _ _ _ u => (u, r);
  rados_read := fun _ _ _ _ u => (u, ([], r));
  rados_remove := fun _ _ u => (u, r);
  rados_trunc := fun _ _ _ u => (u, r);
  rados_ioctx_get_pool_name := fun _ _ u => (u, ([], r));
  rados_objects_list_open := fun _ u => (u, (0%N, r));
  rados_objects_list_next := fun _ u => (u, (""%string, r));
  rados_objects_list_close := fun _ u => u;
  rados_ioctx_selfmanaged_snap_create := fun _ u => (u, (0%N, r))
|}.


(** A fresh run: nothing logged yet. *)
Definition start {U} (u : U) : state U := State u [].

(** ** Data for the examples *)

Definition io0 : IOContext := {| ioctx := 1%N |}.

(** A pool name of 200 bytes: longer than the first buffer. *)
Definition long_name : list byte := replicate 200 "a"%byte.

(** ** What a library may promise about the pool name *)

(** Buffers below [need] bytes are refused with the status -34. *)
Definition reports_too_small {U} (lib : librados U) (io : IOContext) (need : N) : Prop :=
  forall maxlen u, (maxlen < need)%N ->
    snd (snd (rados_ioctx_get_pool_name lib (ioctx io) maxlen u)) = -34.

(** Buffers of [need] bytes or more receive [name] (and possibly padding
    behind it, such as the terminating zero byte), with the length of the
    name as status. *)
Definition stores_name {U} (lib : librados U) (io : IOContext) (name : list byte)
    (need : N) : Prop :=
  forall maxlen u, (need <= maxlen)%N ->
    exists pad, snd (rados_ioctx_get_pool_name lib (ioctx io) maxlen u)
                = (name ++ pad, Z.of_nat (length name)).

(** ** Shapes of logs *)

(** The size of the buffer [GetPoolName] holds after [i] doublings. *)
Definition buffer_size (i : nat) : N := (128 * 2 ^ N.of_nat i)%N.

(** The entry logged for the call made with that buffer. *)
Definition pool_name_call (io : IOContext) (i : nat) (written : list byte) (ret : Z)
  : event :=
  Ev_get_pool_name (ioctx io) (C_unsigned (buffer_size i)) written ret.

(** The entries logged for a list of entries fetched and visited: each
    fetch is followed by the visit of the name it yielded. *)
Definition fetch_and_visit (ctx : rados_list_ctx_t) (fetched : list (string * Z))
  : list event :=
  flat_map (fun e => [Ev_list_next ctx (fst e) (snd e); Ev_listFn (fst e)]) fetched.

(** ** Runs against a given library *)

Section Runs.

Context {U : Type} (lib : librados U).

(** The call [GetPoolName] makes with the buffer after [j] doublings, in
    the world [u]: the new world, what was stored, the status. *)
Definition pool_name_answer (io : IOContext) (j : nat) (u : U) : U * (list byte * Z) :=
  rados_ioctx_get_pool_name lib (ioctx io) (C_unsigned (buffer_size j)) u.

(** From the world [u] on, the calls with the buffers after [j], ..., [j+k-1]
    doublings are each answered with the status -34. *)
Fixpoint refused (io : IOContext) (j k : nat) (u : U) : Prop :=
  match k with
  | O => True
  | S k' => snd (snd (pool_name_answer io j u)) = -34 /\
            refused io (S j) k' (fst (pool_name_answer io j u))
  end.

(** The world these [k] calls leave, and the entries they put in the log. *)
Fixpoint world_after_refusals (io : IOContext) (j k : nat) (u : U) : U :=
  match k with
  | O => u
  | S k' => world_after_refusals io (S j) k' (fst (pool_name_answer io j u))
  end.

Fixpoint refusals_log (io : IOContext) (j k : nat) (u : U) : list event :=
  match k with
  | O => []
  | S k' =>
    pool_name_call io j (fst (snd (pool_name_answer io j u)))
                        (snd (snd (pool_name_answer io j u)))
      :: refusals_log io (S j) k' (fst (pool_name_answer io j u))
  end.

Variable listFn : ObjectListFunc U.

(** The world after a fetch from the cursor in the world [u] and the visit
    of the entry fetched. *)
Definition fetch_then_visit (ctx : rados_list_ctx_t) (u : U) : U :=
  let f := rados_objects_list_next lib ctx u in
  fst (listFn (fst (snd f)) (fst f)).

(** From the world [u] on, [k] fetches in a row have a non-negative status
    and the visitor, called on the entry of each in the world the fetch
    left, returns. *)
Fixpoint visited (ctx : rados_list_ctx_t) (k : nat) (u : U) : Prop :=
  match k with
  | O => True
  | S k' =>
    let f := rados_objects_list_next lib ctx u in
    0 <= snd (snd f) /\
    snd (listFn (fst (snd f)) (fst f)) = None /\
    visited ctx k' (fetch_then_visit ctx u)
  end.

(** The world these [k] fetches and visits leave, and the entries fetched. *)
Fixpoint world_after_visits (ctx : rados_list_ctx_t) (k : nat) (u : U) : U :=
  match k with
  | O => u
  | S k' => world_after_visits ctx k' (fetch_then_visit ctx u)
  end.

Fixpoint entries_fetched (ctx : rados_list_ctx_t) (k : nat) (u : U)
  : list (string * Z) :=
  match k with
  | O => []
  | S k' => snd (rados_objects_list_next lib ctx u)
              :: entries_fetched ctx k' (fetch_then_visit ctx u)
  end.

End Runs.

(** ** The rest of [ioctx.go]: release, pool statistics, snapshots *)

(** [struct rados_pool_stat_t] of librados, with the twelve counters the Go
    code reads from it; each is a [uint64_t]. *)
Record rados_pool_stat_t : Type := {
  num_bytes : N;
  num_kb : N;
  num_objects : N;
  num_object_clones : N;
  num_object_copies : N;
  num_objects_missing_on_primary : N;
  num_objects_unfound : N;
  num_objects_degraded : N;
  num_rd : N;
  num_rd_kb : N;
  num_wr : N;
  num_wr_kb : N
}.

(** [type PoolStat struct], all fields [uint64]. *)
Record PoolStat : Type := {
  Num_bytes : N;
  Num_kb : N;
  Num_objects : N;
  Num_object_clones : N;
  Num_object_copies : N;
  Num_objects_missing_on_primary : N;
  Num_objects_unfound : N;
  Num_objects_degraded : N;
  Num_rd : N;
  Num_rd_kb : N;
  Num_wr : N;
  Num_wr_kb : N
}.

(** [PoolStat{}]: the zero value. *)
Definition PoolStat_zero : PoolStat :=
  Build_PoolStat 0 0 0 0 0 0 0 0 0 0 0 0.

(** The other primitives of librados that [ioctx.go] calls.
    [rados_ioctx_destroy] and [rados_ioctx_snap_set_read] return nothing;
    [rados_ioctx_pool_stat] fills the structure it is pointed to. *)
Record librados_pool (U : Type) : Type := {
  rados_ioctx_destroy : rados_ioctx_t -> U -> U;
  rados_ioctx_pool_stat : rados_ioctx_t -> U -> U * (rados_pool_stat_t * Z);
  rados_ioctx_snap_create : rados_ioctx_t -> string -> U -> U * Z;
  rados_ioctx_snap_remove : rados_ioctx_t -> string -> U -> U * Z;
  rados_ioctx_snap_rollback : rados_ioctx_t -> string -> string -> U -> U * Z;
  rados_ioctx_snap_set_read : rados_ioctx_t -> rados_snap_t -> U -> U;
  rados_ioctx_selfmanaged_snap_remove : rados_ioctx_t -> rados_snap_t -> U -> U * Z;
  rados_ioctx_selfmanaged_snap_rollback :
    rados_ioctx_t -> string -> rados_snap_t -> U -> U * Z
}.
Arguments rados_ioctx_destroy {U} _ _ _.
Arguments rados_ioctx_pool_stat {U} _ _ _.
Arguments rados_ioctx_snap_create {U} _ _ _ _.
Arguments rados_ioctx_snap_remove {U} _ _ _ _.
Arguments rados_ioctx_snap_rollback {U} _ _ _ _ _.
Arguments rados_ioctx_snap_set_read {U} _ _ _ _.
Arguments rados_ioctx_selfmanaged_snap_remove {U} _ _ _ _.
Arguments rados_ioctx_selfmanaged_snap_rollback {U} _ _ _ _ _.

(** The run-time panic of Go for [*p] on a nil pointer. *)
Definition nil_dereference : panic_value :=
  PanicValue "runtime error: invalid memory address or nil pointer dereference".

(** [*p] for a [*Snapshot]. *)
Definition deref (p : option Snapshot) : result Snapshot :=
  match p with
  | Some v => Returns v
  | None => Panics nil_dereference
  end.

Section PoolBinding.

Context {U : Type}.

Variable plib : librados_pool U.

Notation "x <- m ;; k" := (bind m (fun x => k))
  (at level 100, m at next level, right associativity).

(** A call into C of this part of the file.  It runs the primitive on the
    world and enters nothing in the log: the log has entries for the object
    and listing calls only, and what these calls did is read off the
    world. *)
Definition call {A} (f : U -> U * A) : M U A :=
  fun s => let (u, a) := f (world s) in (State u (trace s), Returns a).

(** [func (ioctx *IOContext) Destroy()] *)
Definition Destroy (io : IOContext) : M U unit :=
  call (fun u => (rados_ioctx_destroy plib (ioctx io) u, tt)).

(** [func (ioctx *IOContext) GetPoolStats() (stat PoolStat, err error)] *)
Definition GetPoolStats (io : IOContext) : M U (PoolStat * error) :=
  r <- call (rados_ioctx_pool_stat plib (ioctx io)) ;;
  let '(c_stat, ret) := r in
  if ret <? 0 then pure (PoolStat_zero, RadosError ret)
  else pure ({|
    Num_bytes := num_bytes c_stat;
    Num_kb := num_kb c_stat;
    Num_objects := num_objects c_stat;
    Num_object_clones := num_object_clones c_stat;
    Num_object_copies := num_object_copies c_stat;
    Num_objects_missing_on_primary := num_objects_missing_on_primary c_stat;
    Num_objects_unfound := num_objects_unfound c_stat;
    Num_objects_degraded := num_objects_degraded c_stat;
    Num_rd := num_rd c_stat;
    Num_rd_kb := num_rd_kb c_stat;
    Num_wr := num_wr c_stat;
    Num_wr_kb := num_wr_kb c_stat
  |}, nil_error).

(** [func (ioctx *IOContext) CreatePoolSnapshot(name string) error] *)
Definition CreatePoolSnapshot (io : IOContext) (name : string) : M U error :=
  ret <- call (rados_ioctx_snap_create plib (ioctx io) name) ;;
  if ret <? 0 then pure (RadosError ret) else pure nil_error.

(** [func (ioctx *IOContext) RemovePoolSnapshot(name string) error] *)
Definition RemovePoolSnapshot (io : IOContext) (name : string) : M U error :=
  ret <- call (rados_ioctx_snap_remove plib (ioctx io) name) ;;
  if ret <? 0 then pure (RadosError ret) else pure nil_error.

(** [func (ioctx *IOContext) RollbackObject(oid, snap string) error] *)
Definition RollbackObject (io : IOContext) (oid snap : string) : M U error :=
  ret <- call (rados_ioctx_snap_rollback plib (ioctx io) oid snap) ;;
  if ret <? 0 then pure (RadosError ret) else pure nil_error.

(** [func (ioctx *IOContext) SetReadSnapshot(snap *Snapshot)] *)
Definition SetReadSnapshot (io : IOContext) (snap : option Snapshot) : M U unit :=
  v <- eval (deref snap) ;;
  call (fun u => (rados_ioctx_snap_set_read plib (ioctx io) v u, tt)).

(** [func (ioctx *IOContext) RemoveManagedSnapshot(snap *Snapshot) error] *)
Definition RemoveManagedSnapshot (io : IOContext) (snap : option Snapshot)
  : M U error :=
  v <- eval (deref snap) ;;
  ret <- call (rados_ioctx_selfmanaged_snap_remove plib (ioctx io) v) ;;
  if ret <? 0 then pure (RadosError ret) else pure nil_error.

(** [func (ioctx *IOContext) RollbackManagedObject(oid string, snap *Snapshot) error] *)
Definition RollbackManagedObject (io : IOContext) (oid : string)
    (snap : option Snapshot) : M U error :=
  v <- eval (deref snap) ;;
  ret <- call (rados_ioctx_selfmanaged_snap_rollback plib (ioctx io) oid v) ;;
  if ret <? 0 then pure (RadosError ret) else pure nil_error.

End PoolBinding.

(** ** Methods called through a [*IOContext] that may be nil *)

Section Receivers.

Context {U : Type} (lib : librados U).

(** Every method reads [ioctx.ioctx] as the first argument of its first
    call into C, before any other step that can fail or that has an
    effect: on the nil receiver it panics there.  ([Read] returns before
    that step when the buffer is empty.) *)
Definition through {A} (recv : option IOContext) (m : IOContext -> M U A) : M U A :=
  match recv with
  | Some io => m io
  | None => eval (Panics nil_dereference)
  end.

Definition Write_ptr (recv : option IOContext) (oid : string) (data : list byte)
    (offset : N) : M U error :=
  through recv (fun io => Write lib io oid data offset).

Definition Read_ptr (recv : option IOContext) (oid : string) (data : list byte)
    (offset : N) : M U (list byte * (Z * error)) :=
  if (length data =? 0)%nat then pure (data, (0, nil_error))
  else through recv (fun io => Read lib io oid data offset).

Definition Delete_ptr (recv : option IOContext) (oid : string) : M U error :=
  through recv (fun io => Delete lib io oid).

Definition Truncate_ptr (recv : option IOContext) (oid : string) (size : N)
  : M U error :=
  through recv (fun io => Truncate lib io oid size).

(** A visitor that may be the nil func: calling that one panics as a nil
    dereference does, and changes nothing. *)
Definition visitor_of (listFn : option (ObjectListFunc U)) : ObjectListFunc U :=
  match listFn with
  | Some f => f
  | None => fun _ u => (u, Some nil_dereference)
  end.

Definition ListObjects_ptr (fuel : nat) (recv : option IOContext)
    (listFn : option (ObjectListFunc U)) : M U error :=
  through recv (fun io => ListObjects lib fuel io (visitor_of listFn)).

End Receivers.

(** Two libraries whose world is the number of calls they have received;
    every call is answered with the status [r]. *)
Definition counting_lib (r : Z) : librados nat := {|
  rados_write := fun _ _ _ _ _ u => (S u, r);
  rados_read := fun _ _ _ _ u => (S u, ([], r));
  rados_remove := fun _ _ u => (S u, r);
  rados_trunc := fun _ _ _ u => (S u, r);
  rados_ioctx_get_pool_name := fun _ _ u => (S u, ([], r));
  rados_objects_list_open := fun _ u => (S u, (0%N, r));
  rados_objects_list_next := fun _ u => (S u, (""%string, r));
  rados_objects_list_close := fun _ u => S u;
  rados_ioctx_selfmanaged_snap_create := fun _ u => (S u, (7%N, r))
|}.

Definition counting_pool_lib (r : Z) (stat : rados_pool_stat_t) : librados_pool nat := {|
  rados_ioctx_destroy := fun _ u => S u;
  rados_ioctx_pool_stat := fun _ u => (S u, (stat, r));
  rados_ioctx_snap_create := fun _ _ u => (S u, r);
  rados_ioctx_snap_remove := fun _ _ u => (S u, r);
  rados_ioctx_snap_rollback := fun _ _ _ u => (S u, r);
  rados_ioctx_snap_set_read := fun _ _ u => S u;
  rados_ioctx_selfmanaged_snap_remove := fun _ _ u => (S u, r);
  rados_ioctx_selfmanaged_snap_rollback := fun _ _ _ u => (S u, r)
|}.

(** A library whose list cursor yields the entries of a script one after
    the other, each with its status, and then the status -2.  Its world is
    the part of the script still to come, next to the caller's own memory
    [V]; all other calls have the status 0. *)
Definition scripted_list_lib {V : Type} : librados (list (string * Z) * V) := {|
  rados_write := fun _ _ _ _ _ u => (u, 0);
  rados_read := fun _ _ _ _ u => (u, ([], 0));
  rados_remove := fun _ _ u => (u, 0);
  rados_trunc := fun _ _ _ u => (u, 0);
  rados_ioctx_get_pool_name := fun _ _ u => (u, ([], 0));
  rados_objects_list_open := fun _ u => (u, (0%N, 0));
  rados_objects_list_next := fun _ u =>
    match fst u with
    | [] => (u, (""%string, -2))
    | e :: rest => ((rest, snd u), e)
    end;
  rados_objects_list_close := fun _ u => u;
  rados_ioctx_selfmanaged_snap_create := fun _ u => (u, (0%N, 0))
|}.

(** A visitor that appends every name it is given to a list in the caller's
    memory. *)
Definition collect : ObjectListFunc (list (string * Z) * list string) :=
  fun oid u => ((fst u, snd u ++ [oid]), None).

(** Statistics with a different value in every counter. *)
Definition some_stat : rados_pool_stat_t :=
  Build_rados_pool_stat_t 1 2 3 4 5 6 7 8 9 10 11 12.

Module MemStore.

(** Modelled from the spec: the storage cluster behind librados is not part
    of the package.  This is the backend the spec describes: a pool of named
    byte blobs with the primitive calls of its section 6 and the object
    semantics of its section 4.1 (a write overwrites its range and does not
    truncate; a read returns at most what the object holds from the offset
    on; reading or removing a missing object fails; truncation zero-fills
    or discards), a pool name that needs a large enough buffer, list
    cursors that yield every object name once and then the end-of-sequence
    status, and snapshots: a snapshot holds the objects as they were when
    it was made, a rollback puts one object back to that state, and once a
    read snapshot is set on the context, reads observe the objects as of
    that snapshot while writes go to the current objects. *)
Record cluster : Type := Cluster {
  objects : gmap string (list byte);
  cursors : gmap N (list string);
  next_ctx : N;
  next_snap : N;
  snaps : gmap N (gmap string (list byte));
  pool_snaps : gmap string (gmap string (list byte));
  read_snap : option N
}.

Definition ENOENT : Z := 2.
Definition EEXIST : Z := 17.
Definition EINVAL : Z := 22.
Definition ERANGE : Z := 34.

Definition content (c : cluster) (oid : string) : list byte :=
  default [] (objects c !! oid).

Definition set_objects (c : cluster) (objs : gmap string (list byte)) : cluster :=
  Cluster objs (cursors c) (next_ctx c) (next_snap c) (snaps c) (pool_snaps c)
          (read_snap c).

Definition set_object (c : cluster) (oid : string) (bytes : list byte) : cluster :=
  set_objects c (<[oid := bytes]> (objects c)).

Definition set_cursors (c : cluster) (cs : gmap N (list string)) (n : N) : cluster :=
  Cluster (objects c) cs n (next_snap c) (snaps c) (pool_snaps c) (read_snap c).

Definition set_snaps (c : cluster) (sn : gmap N (gmap string (list byte))) (n : N)
  : cluster :=
  Cluster (objects c) (cursors c) (next_ctx c) n sn (pool_snaps c) (read_snap c).

Definition set_pool_snaps (c : cluster) (ps : gmap string (gmap string (list byte)))
  : cluster :=
  Cluster (objects c) (cursors c) (next_ctx c) (next_snap c) (snaps c) ps
          (read_snap c).

Definition set_read_snap (c : cluster) (id : N) : cluster :=
  Cluster (objects c) (cursors c) (next_ctx c) (next_snap c) (snaps c)
          (pool_snaps c) (Some id).

(** The objects a read observes: the current ones, or those of the read
    snapshot when one is set ([None] when that snapshot does not exist). *)
Definition read_view (c : cluster) : option (gmap string (list byte)) :=
  match read_snap c with
  | None => Some (objects c)
  | Some id => snaps c !! id
  end.

(** One object put back to its state in [objs]. *)
Definition rollback (c : cluster) (oid : string) (objs : gmap string (list byte))
  : cluster :=
  match objs !! oid with
  | Some bytes => set_object c oid bytes
  | None => set_objects c (delete oid (objects c))
  end.

(** [data] laid over [old] from byte [off] on; a gap before [off] reads as
    zeroes, what [old] holds behind the written range stays. *)
Definition write_at (old data : list byte) (off : nat) : list byte :=
  take off old ++ replicate (off - length old) x00 ++ data
    ++ drop (off + length data) old.

Definition resize (old : list byte) (size : nat) : list byte :=
  take size old ++ replicate (size - length old) x00.

(** The pool an I/O context is bound to is fixed when the context is made:
    its name is a parameter of the library, not part of the state. *)
Definition lib (pool_name : list byte) : librados cluster := {|
  rados_write := fun _ oid p len off c =>
    (set_object c oid (write_at (content c oid) (take (N.to_nat len) p) (N.to_nat off)), 0);
  rados_read := fun _ oid len off c =>
    match read_view c with
    | None => (c, ([], - ENOENT))
    | Some objs =>
      match objs !! oid with
      | None => (c, ([], - ENOENT))
      | Some bytes =>
        let got := take (N.to_nat len) (drop (N.to_nat off) bytes) in
        (c, (got, Z.of_nat (length got)))
      end
    end;
  rados_remove := fun _ oid c =>
    match objects c !! oid with
    | None => (c, - ENOENT)
    | Some _ => (set_objects c (delete oid (objects c)), 0)
    end;
  rados_trunc := fun _ oid size c =>
    (set_object c oid (resize (content c oid) (N.to_nat size)), 0);
  rados_ioctx_get_pool_name := fun _ maxlen c =>
    if (maxlen <=? N.of_nat (length pool_name))%N then (c, ([], - ERANGE))
    else (c, (pool_name ++ [x00], Z.of_nat (length pool_name)));
  rados_objects_list_open := fun _ c =>
    (set_cursors c (<[next_ctx c := (map_to_list (objects c)).*1]> (cursors c))
                 (N.succ (next_ctx c)),
     (next_ctx c, 0));
  rados_objects_list_next := fun ctx c =>
    match cursors c !! ctx with
    | None => (c, (""%string, - EINVAL))
    | Some [] => (c, (""%string, - ENOENT))
    | Some (oid :: rest) =>
      (set_cursors c (<[ctx := rest]> (cursors c)) (next_ctx c), (oid, 0))
    end;
  rados_objects_list_close := fun ctx c =>
    set_cursors c (delete ctx (cursors c)) (next_ctx c);
  rados_ioctx_selfmanaged_snap_create := fun _ c =>
    (set_snaps c (<[next_snap c := objects c]> (snaps c)) (N.succ (next_snap c)),
     (next_snap c, 0))
|}.

(** The statistics of the pool: the bytes and the number of the objects;
    the cluster keeps one copy of each and counts no reads or writes. *)
Definition stat (c : cluster) : rados_pool_stat_t :=
  let bytes := N.of_nat (map_fold (fun _ b n => length b + n)%nat 0%nat (objects c)) in
  let n := N.of_nat (size (objects c)) in
  Build_rados_pool_stat_t bytes (bytes / 1024) n 0 n 0 0 0 0 0 0 0.

Definition pool_lib : librados_pool cluster := {|
  rados_ioctx_destroy := fun _ c => c;
  rados_ioctx_pool_stat := fun _ c => (c, (stat c, 0));
  rados_ioctx_snap_create := fun _ name c =>
    match pool_snaps c !! name with
    | Some _ => (c, - EEXIST)
    | None => (set_pool_snaps c (<[name := objects c]> (pool_snaps c)), 0)
    end;
  rados_ioctx_snap_remove := fun _ name c =>
    match pool_snaps c !! name with
    | Some _ => (set_pool_snaps c (delete name (pool_snaps c)), 0)
    | None => (c, - ENOENT)
    end;
  rados_ioctx_snap_rollback := fun _ oid name c =>
    match pool_snaps c !! name with
    | Some objs => (rollback c oid objs, 0)
    | None => (c, - ENOENT)
    end;
  rados_ioctx_snap_set_read := fun _ id c => set_read_snap c id;
  rados_ioctx_selfmanaged_snap_remove := fun _ id c =>
    match snaps c !! id with
    | Some _ => (set_snaps c (delete id (snaps c)) (next_snap c), 0)
    | None => (c, - ENOENT)
    end;
  rados_ioctx_selfmanaged_snap_rollback := fun _ oid id c =>
    match snaps c !! id with
    | Some objs => (rollback c oid objs, 0)
    | None => (c, - ENOENT)
    end
|}.

(** An empty pool, no read snapshot set. *)
Definition empty : cluster := Cluster ∅ ∅ 0%N 0%N ∅ ∅ None.

End MemStore.

(** A pool holding the objects [a] (one byte) and [b] (two bytes). *)
Definition two_objects : MemStore.cluster :=
  MemStore.set_objects MemStore.empty
    (<["a"%string := [x01]]> (<["b"%string := [x02; x03]]> ∅)).

(** Visitors: one that does nothing, one that panics on every name. *)
Definition quiet_visitor : ObjectListFunc MemStore.cluster :=
  fun _ u => (u, None).
Definition panicking_visitor : ObjectListFunc MemStore.cluster :=
  fun _ u => (u, Some (PanicValue "boom")).

(** * Properties of the binding *)

Section BindingFacts.

Context {U : Type} (lib : librados U).

(** ** Single calls: [Write], [Read], [Delete], [Truncate] *)

Lemma addr_of_index_0 (data : list byte) :
  (0 < length data)%nat -> addr_of_index data 0 = Returns data.
Proof.
  intros Hlen. unfold addr_of_index.
  destruct (decide (0 < length data)%nat) as [_|Hn]; [reflexivity | lia].
Qed.

Lemma Write_nonempty io oid data offset s :
  (0 < length data)%nat ->
  Write lib io oid data offset s =
    let (u, ret) :=
      rados_write lib (ioctx io) oid data (N.of_nat (length data)) offset (world s) in
    (State u (trace s ++ [Ev_write (ioctx io) oid data (N.of_nat (length data)) offset ret]),
     Returns (if ret =? 0 then nil_error else RadosError ret)).
Proof.
  intros Hlen. unfold Write, bind, eval, ccall.
  rewrite (addr_of_index_0 data Hlen).
  destruct (rados_write lib _ _ _ _ _ _) as [u r]. destruct (r =? 0); reflexivity.
Qed.

Lemma Read_nonempty io oid data offset s :
  (0 < length data)%nat ->
  Read lib io oid data offset s =
    let '(u, (written, ret)) :=
      rados_read lib (ioctx io) oid (N.of_nat (length data)) offset (world s) in
    (State u (trace s ++ [Ev_read (ioctx io) oid (N.of_nat (length data)) offset
                            written ret]),
     Returns (poke data written,
              if 0 <=? ret then (ret, nil_error) else (0, RadosError ret))).
Proof.
  intros Hlen. unfold Read, bind, eval, ccall.
  destruct (Nat.eqb_spec (length data) 0) as [E|_]; [lia|].
  rewrite (addr_of_index_0 data Hlen).
  destruct (rados_read lib _ _ _ _ _) as [u [written r]]. simpl.
  destruct (0 <=? r); reflexivity.
Qed.

(** C1, as the code behaves: [Write] with zero-length data does not succeed.
    Evaluating [&data[0]] on the empty slice raises the index-out-of-range
    panic before librados is reached; nothing is written and nothing is
    logged. *)
Theorem Write_empty_data_panics (io : IOContext) (oid : string) (offset : N)
    (s : state U) :
  Write lib io oid [] offset s = (s, Panics (IndexOutOfRange 0 0)).
Proof. reflexivity. Qed.

(** C2, amended: [Write] (of non-empty data), [Delete] and [Truncate] return
    nil exactly when the status of the native call is zero, and
    [RadosError] of the status for every other status, positive ones
    included. *)
Theorem zero_status_is_the_only_success (io : IOContext) (oid : string)
    (data : list byte) (offset size : N) (s : state U) :
  (0 < length data)%nat ->
  let w := snd (rados_write lib (ioctx io) oid data (N.of_nat (length data))
                  offset (world s)) in
  let d := snd (rados_remove lib (ioctx io) oid (world s)) in
  let t := snd (rados_trunc lib (ioctx io) oid size (world s)) in
  (w = 0 -> snd (Write lib io oid data offset s) = Returns nil_error) /\
  (w <> 0 -> snd (Write lib io oid data offset s) = Returns (RadosError w)) /\
  (d = 0 -> snd (Delete lib io oid s) = Returns nil_error) /\
  (d <> 0 -> snd (Delete lib io oid s) = Returns (RadosError d)) /\
  (t = 0 -> snd (Truncate lib io oid size s) = Returns nil_error) /\
  (t <> 0 -> snd (Truncate lib io oid size s) = Returns (RadosError t)).
Proof.
  intros Hlen. cbv zeta. rewrite (Write_nonempty _ _ _ _ _ Hlen).
  unfold Delete, Truncate, bind, ccall, pure.
  destruct (rados_write lib _ _ _ _ _ _) as [uw w].
  destruct (rados_remove lib _ _ _) as [ud d].
  destruct (rados_trunc lib _ _ _ _) as [ut t]. simpl.
  repeat split; intros H;
    match goal with
    | |- context [?x =? 0] => destruct (Z.eqb_spec x 0)
    end; solve [reflexivity | congruence].
Qed.

(** C3: [Read] with a zero-length buffer returns [(0, nil)] at once: the
    state is untouched, so no call reached the library and the log did not
    grow. *)
Theorem Read_empty_buffer_short_circuit (io : IOContext) (oid : string)
    (offset : N) (s : state U) :
  Read lib io oid [] offset s = (s, Returns ([], (0, nil_error))).
Proof. reflexivity. Qed.

(** C8: for a non-empty buffer, [Read] returns the status of its
    [rados_read] call for [len(data)] bytes as the byte count, with a nil
    error, when that status is not negative (whatever the count, also below
    the requested length), and [RadosError] of the status when it is
    negative.  The buffer holds what the call stored in it. *)
Theorem Read_count_or_error (io : IOContext) (oid : string) (data : list byte)
    (offset : N) (s : state U) :
  (0 < length data)%nat ->
  let call := snd (rados_read lib (ioctx io) oid (N.of_nat (length data))
                     offset (world s)) in
  let data' := poke data (fst call) in
  let ret := snd call in
  let got := snd (Read lib io oid data offset s) in
  (0 <= ret -> got = Returns (data', (ret, nil_error))) /\
  (ret < 0 -> got = Returns (data', (0, RadosError ret))).
Proof.
  intros Hlen. cbv zeta. rewrite (Read_nonempty _ _ _ _ _ Hlen).
  destruct (rados_read lib _ _ _ _ _) as [u [written r]]. cbn [fst snd].
  split; intros Hr.
  - destruct (Z.leb_spec 0 r); [reflexivity | lia].
  - destruct (Z.leb_spec 0 r); [lia | reflexivity].
Qed.

(** C9: a [Read] that returns a non-nil error returns the byte count 0. *)
Theorem Read_error_count_zero (io : IOContext) (oid : string) (data data' : list byte)
    (offset : N) (s : state U) (n : Z) (err : error) :
  snd (Read lib io oid data offset s) = Returns (data', (n, err)) ->
  err <> nil_error ->
  n = 0.
Proof.
  intros Hrun Herr. destruct data as [|b data].
  - change (Read lib io oid [] offset s) with (s, Returns ([] : list byte, (0, nil_error)))
      in Hrun.
    simpl in Hrun. congruence.
  - rewrite Read_nonempty in Hrun by (simpl; lia).
    destruct (rados_read lib _ _ _ _ _) as [u [written r]]. simpl in Hrun.
    destruct (0 <=? r); congruence.
Qed.

(** C10: [CreateManagedSnapshot] always returns, and its pointer is non-nil
    exactly when its error is nil: a negative status gives the nil pointer
    with [RadosError] of the status, any other status a pointer to the
    snapshot id with a nil error. *)
Theorem CreateManagedSnapshot_pointer_iff_no_error (io : IOContext) (s : state U) :
  let ret := snd (snd (rados_ioctx_selfmanaged_snap_create lib (ioctx io) (world s))) in
  exists (p : option Snapshot) (err : error),
    snd (CreateManagedSnapshot lib io s) = Returns (p, err) /\
    (p <> None <-> err = nil_error) /\
    (ret < 0 -> p = None /\ err = RadosError ret) /\
    (0 <= ret -> p <> None /\ err = nil_error).
Proof.
  cbv zeta. unfold CreateManagedSnapshot, bind, ccall, pure.
  destruct (rados_ioctx_selfmanaged_snap_create lib _ _) as [u [snap r]]. simpl.
  destruct (Z.ltb_spec r 0).
  - exists None, (RadosError r). repeat split; try congruence; lia.
  - exists (Some snap), nil_error. repeat split; try congruence; lia.
Qed.

End BindingFacts.

(** ** [GetPoolName]: the growing buffer *)

Section PoolNameFacts.

Context {U : Type} (lib : librados U) (io : IOContext).

Lemma buffer_size_S j : buffer_size (S j) = (2 * buffer_size j)%N.
Proof.
  unfold buffer_size. rewrite Nat2N.inj_succ, N.pow_succ_r by lia. lia.
Qed.

Lemma buffer_size_pos j : (0 < buffer_size j)%N.
Proof.
  unfold buffer_size. assert (2 ^ N.of_nat j <> 0)%N by (apply N.pow_nonzero; lia). lia.
Qed.

Lemma buffer_size_mono i j : (i <= j)%nat -> (buffer_size i <= buffer_size j)%N.
Proof.
  intros Hij. unfold buffer_size.
  assert (2 ^ N.of_nat i <= 2 ^ N.of_nat j)%N by (apply N.pow_le_mono_r; lia). lia.
Qed.

Lemma buffer_size_24 : buffer_size 24 = (2 ^ 31)%N.
Proof. reflexivity. Qed.

Lemma C_unsigned_buffer_size i : (i <= 24)%nat -> C_unsigned (buffer_size i) = buffer_size i.
Proof.
  intros Hi. unfold C_unsigned. apply N.mod_small.
  pose proof (buffer_size_mono i 24 Hi) as Hle. rewrite buffer_size_24 in Hle.
  assert (2 ^ 31 < 2 ^ 32)%N by reflexivity. lia.
Qed.

Lemma buffer_size_41 : buffer_size 41 = (2 ^ 48)%N.
Proof. reflexivity. Qed.

Lemma length_zeros n : length (zeros n) = n.
Proof. apply length_replicate. Qed.

Lemma int_small z : 0 <= z < 2 ^ 63 -> int z = z.
Proof. intros Hz. unfold int. rewrite Z.mod_small; lia. Qed.

(** Doubling the buffer after [j] doublings: [make] hands out the doubled
    buffer up to 2^48 bytes, and panics at the next doubling. *)
Lemma make_doubled j n :
  N.of_nat n = buffer_size j ->
  (j <= 41)%nat ->
  make (int (Z.of_nat n * 2))
  = if (j <=? 40)%nat then Returns (zeros (n * 2)) else Panics makeslice_panic.
Proof.
  intros Hn Hj.
  pose proof (buffer_size_mono j 41 Hj) as H41. rewrite buffer_size_41 in H41.
  assert (Z.of_nat n * 2 < 2 ^ 63) as Hlt by lia.
  rewrite int_small by lia. unfold make, maxAlloc.
  destruct (Nat.leb_spec j 40) as [H40|H40].
  - pose proof (buffer_size_mono (S j) 41 ltac:(lia)) as HS.
    rewrite buffer_size_41, buffer_size_S in HS.
    destruct (Z.ltb_spec (Z.of_nat n * 2) 0); [lia|].
    destruct (Z.ltb_spec (2 ^ 48) (Z.of_nat n * 2)); [lia|]. cbn [orb].
    replace (Z.of_nat n * 2) with (Z.of_nat (n * 2)) by lia.
    rewrite Nat2Z.id. reflexivity.
  - assert (j = 41%nat) as -> by lia. rewrite buffer_size_41 in Hn.
    destruct (Z.ltb_spec (Z.of_nat n * 2) 0); [lia|].
    destruct (Z.ltb_spec (2 ^ 48) (Z.of_nat n * 2)); [reflexivity | lia].
Qed.

(** [GetPoolName] is its loop on 128 zero bytes. *)
Lemma GetPoolName_unfold fuel s :
  GetPoolName lib fuel io s = GetPoolName_loop lib fuel io (zeros 128) s.
Proof. reflexivity. Qed.

(** One turn of the loop on the buffer after [j] doublings. *)
Lemma GetPoolName_loop_step fuel j n s :
  N.of_nat n = buffer_size j ->
  (j <= 41)%nat ->
  GetPoolName_loop lib (S fuel) io (zeros n) s =
    let a := pool_name_answer lib io j (world s) in
    let s1 := State (fst a)
                (trace s ++ [pool_name_call io j (fst (snd a)) (snd (snd a))]) in
    if snd (snd a) =? -34 then
      if (j <=? 40)%nat then GetPoolName_loop lib fuel io (zeros (n * 2)) s1
      else (s1, Panics makeslice_panic)
    else (s1, Returns (if snd (snd a) <? 0 then (""%string, RadosError (snd (snd a)))
                       else (GoStringN (poke (zeros n) (fst (snd a))) (snd (snd a)),
                             nil_error))).
Proof.
  intros Hn Hj. assert (0 < n)%nat as Hpos by (pose proof (buffer_size_pos j); lia).
  cbn [GetPoolName_loop]. unfold bind at 1, eval at 1.
  rewrite addr_of_index_0 by (rewrite length_zeros; exact Hpos).
  unfold bind at 1, ccall. rewrite length_zeros, Hn.
  unfold pool_name_answer, pool_name_call. cbv zeta.
  destruct (rados_ioctx_get_pool_name lib _ _ _) as [u [written r]]. cbn [fst snd].
  destruct (r =? -34).
  - unfold bind, eval. rewrite (make_doubled j n Hn Hj).
    destruct (j <=? 40)%nat; reflexivity.
  - destruct (r <? 0); reflexivity.
Qed.

(** Every run of the loop, whatever the library answers.  From the buffer
    after [j] doublings, [k] calls in a row are answered -34 and the buffer
    is doubled after each; then the unrolling is used up, or [make] has
    refused the next buffer (the one after 42 doublings), or one more call
    is answered with another status, which decides the result. *)
Lemma GetPoolName_loop_run fuel : forall j n s,
  N.of_nat n = buffer_size j ->
  (j <= 41)%nat ->
  let run := GetPoolName_loop lib fuel io (zeros n) s in
  exists k, (k <= fuel)%nat /\ refused lib io j k (world s) /\
    let u := world_after_refusals lib io j k (world s) in
    let log := trace s ++ refusals_log lib io j k (world s) in
    ((k = fuel /\ (j + k <= 41)%nat /\ run = (State u log, OutOfFuel)) \/
     ((j + k = 42)%nat /\ run = (State u log, Panics makeslice_panic)) \/
     ((k < fuel)%nat /\ (j + k <= 41)%nat /\
      let a := pool_name_answer lib io (j + k) u in
      snd (snd a) <> -34 /\
      fst run = State (fst a)
                  (log ++ [pool_name_call io (j + k) (fst (snd a)) (snd (snd a))]) /\
      (snd (snd a) < 0 ->
         snd run = Returns (""%string, RadosError (snd (snd a)))) /\
      (0 <= snd (snd a) <= Z.of_N (buffer_size (j + k)) ->
         snd run = Returns
           (GoStringN (poke (zeros (N.to_nat (buffer_size (j + k)))) (fst (snd a)))
                      (snd (snd a)),
            nil_error)))).
Proof.
  induction fuel as [|fuel IH]; intros j n s Hn Hj; cbv zeta.
  - exists 0%nat. split; [lia|]. split; [exact I|]. left.
    cbn [world_after_refusals refusals_log GetPoolName_loop eval].
    rewrite app_nil_r. destruct s. repeat split; auto; lia.
  - rewrite (GetPoolName_loop_step fuel j n s Hn Hj). cbv zeta.
    destruct (Z.eqb_spec (snd (snd (pool_name_answer lib io j (world s)))) (-34))
      as [Hr|Hr].
    + destruct (Nat.leb_spec j 40) as [H40|H40].
      * assert (N.of_nat (n * 2) = buffer_size (S j)) as Hn2
          by (rewrite buffer_size_S; lia).
        destruct (IH (S j) (n * 2)%nat
                    (State (fst (pool_name_answer lib io j (world s)))
                       (trace s ++ [pool_name_call io j
                          (fst (snd (pool_name_answer lib io j (world s))))
                          (snd (snd (pool_name_answer lib io j (world s))))]))
                    Hn2 ltac:(lia)) as (k & Hk & Href & Hrun).
        exists (S k). split; [lia|]. split; [split; assumption|].
        cbn [world trace] in Hrun.
        cbn [world_after_refusals refusals_log].
        replace (j + S k)%nat with (S j + k)%nat by lia.
        rewrite <- app_assoc in Hrun. cbn [app] in Hrun.
        destruct Hrun as [(-> & Hle & Hrun) | [(Heq & Hrun) | (Hlt & Hle & Hrun)]].
        -- left. repeat split; auto.
        -- right. left. split; auto.
        -- right. right. split; [lia|]. split; [exact Hle|]. exact Hrun.
      * assert (j = 41%nat) as -> by lia.
        exists 1%nat. split; [lia|]. split; [split; [exact Hr | exact I]|].
        right. left. split; [reflexivity|].
        cbn [world_after_refusals refusals_log]. reflexivity.
    + exists 0%nat. split; [lia|]. split; [exact I|]. right. right.
      split; [lia|]. split; [lia|].
      cbn [world_after_refusals refusals_log]. rewrite Nat.add_0_r, app_nil_r.
      split; [exact Hr|]. split; [reflexivity|]. cbn [snd].
      rewrite <- Hn, Nat2N.id. split; intros Hret.
      * destruct (Z.ltb_spec (snd (snd (pool_name_answer lib io j (world s)))) 0);
          [reflexivity | lia].
      * destruct (Z.ltb_spec (snd (snd (pool_name_answer lib io j (world s)))) 0);
          [lia | reflexivity].
Qed.

Section Fits.

Variables (name : list byte) (need : N).

Hypothesis name_fits : (N.of_nat (length name) <= need)%N.
Hypothesis need_int : (need <= 2 ^ 31)%N.
Hypothesis large_enough : stores_name lib io name need.

(** The first buffer that is large enough comes after at most 24 doublings. *)
Lemma first_fit :
  exists k, (k <= 24)%nat /\ (need <= buffer_size k)%N /\
            forall i, (i < k)%nat -> (buffer_size i < need)%N.
Proof using need_int.
  clear name_fits large_enough.
  assert (forall n, (forall i, (i < n)%nat -> (buffer_size i < need)%N) \/
                    exists k, (k < n)%nat /\ (need <= buffer_size k)%N /\
                              forall i, (i < k)%nat -> (buffer_size i < need)%N)
    as Hsearch.
  { induction n as [|n [Hall | (k & Hk & Hfit & Hleast)]].
    - left. intros i Hi. lia.
    - destruct (N.le_gt_cases need (buffer_size n)) as [Hle | Hgt].
      + right. exists n. repeat split; auto.
      + left. intros i Hi. destruct (decide (i = n)) as [->|]; [lia|].
        apply Hall. lia.
    - right. exists k. repeat split; auto. }
  destruct (Hsearch 25%nat) as [Hall | (k & Hk & Hfit & Hleast)].
  - specialize (Hall 24%nat ltac:(lia)). rewrite buffer_size_24 in Hall. lia.
  - exists k. repeat split; auto. lia.
Qed.

Lemma GoStringN_name n pad :
  (length name <= n)%nat ->
  GoStringN (poke (zeros n) (name ++ pad)) (Z.of_nat (length name))
  = string_of_list_byte name.
Proof using Type.
  intros Hle. unfold GoStringN, poke. rewrite Nat2Z.id, length_zeros.
  rewrite take_take, Nat.min_l by exact Hle.
  rewrite <- app_assoc. rewrite take_app_length. reflexivity.
Qed.

(** The answer to a call with a buffer that is large enough. *)
Lemma answer_when_large_enough j u :
  (j <= 24)%nat -> (need <= buffer_size j)%N ->
  exists pad, snd (pool_name_answer lib io j u) = (name ++ pad, Z.of_nat (length name)).
Proof using large_enough.
  intros Hj Hfit. unfold pool_name_answer. rewrite C_unsigned_buffer_size by exact Hj.
  apply large_enough. exact Hfit.
Qed.

(** The loop terminates: with a buffer that is large enough [d] doublings
    ahead, it returns after at most [d] retries. *)
Lemma GetPoolName_loop_terminates d : forall j n s fuel,
  N.of_nat n = buffer_size j ->
  (j + d <= 24)%nat ->
  (need <= buffer_size (j + d))%N ->
  (d < fuel)%nat ->
  exists k s' r,
    (k <= d)%nat /\
    GetPoolName_loop lib fuel io (zeros n) s = (s', Returns r) /\
    length (trace s') = (length (trace s) + k + 1)%nat.
Proof using name_fits need_int large_enough.
  induction d as [|d IH]; intros j n s fuel Hn H24 Hfit Hfuel;
    (destruct fuel as [|fuel]; [lia|]);
    rewrite (GetPoolName_loop_step fuel j n s Hn ltac:(lia)); cbv zeta.
  - rewrite Nat.add_0_r in *.
    destruct (answer_when_large_enough j (world s) H24 Hfit) as [pad Ha].
    rewrite Ha. cbn [fst snd].
    destruct (Z.eqb_spec (Z.of_nat (length name)) (-34)) as [E|_]; [lia|].
    exists 0%nat. eexists _, _. split; [lia|]. split; [reflexivity|].
    cbn [trace]. rewrite length_app. cbn. lia.
  - destruct (Z.eqb_spec (snd (snd (pool_name_answer lib io j (world s)))) (-34))
      as [Hr|Hr].
    + destruct (Nat.leb_spec j 40) as [_|H40]; [|lia].
      assert (N.of_nat (n * 2) = buffer_size (S j)) as Hn2
        by (rewrite buffer_size_S; lia).
      destruct (IH (S j) (n * 2)%nat
                  (State (fst (pool_name_answer lib io j (world s)))
                     (trace s ++ [pool_name_call io j
                        (fst (snd (pool_name_answer lib io j (world s))))
                        (snd (snd (pool_name_answer lib io j (world s))))]))
                  fuel Hn2) as (k & s' & r & Hk & Hrun & Hlen); try lia.
      { replace (S j + d)%nat with (j + S d)%nat by lia. exact Hfit. }
      exists (S k), s', r. split; [lia|]. split; [exact Hrun|].
      rewrite Hlen. cbn [trace]. rewrite length_app. cbn. lia.
    + exists 0%nat. eexists _, _. split; [lia|]. split; [reflexivity|].
      cbn [trace]. rewrite length_app. cbn. lia.
Qed.

Hypothesis too_small : reports_too_small lib io need.

(** The answer to a call with a buffer that is too small. *)
Lemma answer_when_too_small j u :
  (j <= 24)%nat -> (buffer_size j < need)%N ->
  snd (snd (pool_name_answer lib io j u)) = -34.
Proof using too_small.
  intros Hj Hsmall. unfold pool_name_answer. rewrite C_unsigned_buffer_size by exact Hj.
  apply too_small. exact Hsmall.
Qed.

(** With [d] too-small buffers ahead of the first one that fits, the loop
    makes [d] retries and returns the name from call [d+1]. *)
Lemma GetPoolName_loop_fits d : forall j n s fuel,
  N.of_nat n = buffer_size j ->
  (j + d <= 24)%nat ->
  (forall i, (j <= i < j + d)%nat -> (buffer_size i < need)%N) ->
  (need <= buffer_size (j + d))%N ->
  (d < fuel)%nat ->
  exists s' pad,
    refused lib io j d (world s) /\
    GetPoolName_loop lib fuel io (zeros n) s
      = (s', Returns (string_of_list_byte name, nil_error)) /\
    trace s' = trace s ++ refusals_log lib io j d (world s)
                 ++ [pool_name_call io (j + d) (name ++ pad) (Z.of_nat (length name))].
Proof using name_fits need_int large_enough too_small.
  induction d as [|d IH]; intros j n s fuel Hn H24 Hsmall Hfit Hfuel;
    (destruct fuel as [|fuel]; [lia|]);
    rewrite (GetPoolName_loop_step fuel j n s Hn ltac:(lia)); cbv zeta.
  - rewrite Nat.add_0_r in *.
    destruct (answer_when_large_enough j (world s) H24 Hfit) as [pad Ha].
    rewrite Ha. cbn [fst snd].
    destruct (Z.eqb_spec (Z.of_nat (length name)) (-34)) as [E|_]; [lia|].
    destruct (Z.ltb_spec (Z.of_nat (length name)) 0) as [E|_]; [lia|].
    pose proof (buffer_size_pos j).
    rewrite GoStringN_name by lia.
    eexists _, pad. split; [exact I|]. split; [reflexivity|]. reflexivity.
  - pose proof (answer_when_too_small j (world s) ltac:(lia) (Hsmall j ltac:(lia)))
      as Hr.
    rewrite Hr. cbn [Z.eqb Pos.eqb].
    destruct (Nat.leb_spec j 40) as [_|H40]; [|lia].
    assert (N.of_nat (n * 2) = buffer_size (S j)) as Hn2
      by (rewrite buffer_size_S; lia).
    destruct (IH (S j) (n * 2)%nat
                (State (fst (pool_name_answer lib io j (world s)))
                   (trace s ++ [pool_name_call io j
                      (fst (snd (pool_name_answer lib io j (world s)))) (-34)]))
                fuel Hn2) as (s' & pad & Href & Hrun & Ht); try lia.
    + intros i Hi. apply Hsmall. lia.
    + replace (S j + d)%nat with (j + S d)%nat by lia. exact Hfit.
    + exists s', pad. split; [split; [exact Hr | exact Href]|].
      split; [exact Hrun|]. rewrite Ht. cbn [trace world refusals_log].
      replace (j + S d)%nat with (S j + d)%nat by lia.
      rewrite Hr, <- app_assoc. reflexivity.
Qed.

End Fits.

Lemma length_refusals_log k : forall j u, length (refusals_log lib io j k u) = k.
Proof. induction k as [|k IH]; intros j u; cbn; [reflexivity | rewrite IH; reflexivity]. Qed.

(** Against a library that answers -34 whatever the buffer: the loop goes
    on until [make] refuses the buffer after 42 doublings. *)
Lemma GetPoolName_refused_forever
    (refuses : forall maxlen u,
       snd (snd (rados_ioctx_get_pool_name lib (ioctx io) maxlen u)) = -34)
    (fuel : nat) (s : state U) :
  let run := GetPoolName lib fuel io s in
  ((fuel <= 41)%nat ->
     snd run = OutOfFuel /\ length (trace (fst run)) = (length (trace s) + fuel)%nat) /\
  ((42 <= fuel)%nat ->
     snd run = Panics makeslice_panic /\
     length (trace (fst run)) = (length (trace s) + 42)%nat).
Proof.
  cbv zeta. rewrite GetPoolName_unfold.
  destruct (GetPoolName_loop_run fuel 0 128 s eq_refl ltac:(lia))
    as (k & Hk & _ & Hrun). cbv zeta in Hrun. cbn [Nat.add] in Hrun.
  destruct Hrun as [(-> & Hle & ->) | [(-> & ->) | (_ & _ & Hne & _)]].
  - split; [|lia]. intros _. cbn [fst snd trace].
    rewrite length_app, length_refusals_log. auto.
  - split; [lia|]. intros _. cbn [fst snd trace].
    rewrite length_app, length_refusals_log. auto.
  - exfalso. apply Hne. apply refuses.
Qed.


(** From 25 doublings on the size of the buffer is a multiple of 2^32. *)
Lemma C_unsigned_buffer_size_wraps i :
  (25 <= i)%nat -> C_unsigned (buffer_size i) = 0%N.
Proof.
  intros Hi. unfold C_unsigned, buffer_size.
  replace (N.of_nat i) with (25 + N.of_nat (i - 25))%N by lia.
  rewrite N.pow_add_r.
  replace (128 * (2 ^ 25 * 2 ^ N.of_nat (i - 25)))%N
    with (2 ^ N.of_nat (i - 25) * 2 ^ 32)%N
    by (change (2 ^ 25)%N with 33554432%N; change (2 ^ 32)%N with 4294967296%N; lia).
  apply N.Div0.mod_mul.
Qed.

Lemma pool_name_call_maxlen i w r :
  pool_name_call io i w r
  = Ev_get_pool_name (ioctx io) (if (i <=? 24)%nat then buffer_size i else 0%N) w r.
Proof.
  unfold pool_name_call. destruct (Nat.leb_spec i 24).
  - rewrite C_unsigned_buffer_size by lia. reflexivity.
  - rewrite C_unsigned_buffer_size_wraps by lia. reflexivity.
Qed.



End PoolNameFacts.

(** ** [ListObjects]: the cursor *)

Section ListFacts.

Context {U : Type} (lib : librados U) (listFn : ObjectListFunc U).

(** One turn of the loop. *)
Lemma ListObjects_loop_step fuel ctx s :
  ListObjects_loop lib (S fuel) listFn ctx s =
    let '(u, (entry, ret)) := rados_objects_list_next lib ctx (world s) in
    let s1 := State u (trace s ++ [Ev_list_next ctx entry ret]) in
    if ret =? -2 then (s1, Returns nil_error)
    else if ret <? 0 then (s1, Returns (RadosError ret))
    else
      let (u2, p) := listFn entry u in
      let s2 := State u2 (trace s1 ++ [Ev_listFn entry]) in
      match p with
      | None => ListObjects_loop lib fuel listFn ctx s2
      | Some v => (s2, Panics v)
      end.
Proof.
  cbn [ListObjects_loop]. unfold bind, ccall, call_listFn, pure.
  destruct (rados_objects_list_next lib ctx (world s)) as [u [entry r]].
  cbn [fst snd]. destruct (r =? -2); [reflexivity|].
  destruct (r <? 0); [reflexivity|]. cbn [world trace].
  destruct (listFn entry u) as [u2 [v|]]; reflexivity.
Qed.

(** Every run of the loop: some entries are fetched with a non-negative
    status and each is visited before the next fetch; then the unrolling is
    used up, or a fetch has a negative status and the loop returns, or the
    visitor panics on the entry just fetched. *)
Lemma ListObjects_loop_run ctx fuel : forall s,
  let run := ListObjects_loop lib fuel listFn ctx s in
  exists fetched : list (string * Z),
    Forall (fun e => 0 <= snd e) fetched /\
    ((snd run = OutOfFuel /\ length fetched = fuel /\
      trace (fst run) = trace s ++ fetch_and_visit ctx fetched) \/
     (exists entry code, code < 0 /\
        snd run = Returns (if code =? -2 then nil_error else RadosError code) /\
        trace (fst run) = trace s ++ fetch_and_visit ctx fetched
                            ++ [Ev_list_next ctx entry code]) \/
     (exists entry code p, 0 <= code /\
        snd run = Panics p /\
        trace (fst run) = trace s ++ fetch_and_visit ctx fetched
                            ++ [Ev_list_next ctx entry code; Ev_listFn entry])).
Proof.
  induction fuel as [|fuel IH]; intros s; cbv zeta.
  - exists []. split; [constructor|]. left. cbn. rewrite app_nil_r. auto.
  - rewrite ListObjects_loop_step.
    destruct (rados_objects_list_next lib ctx (world s)) as [u [entry r]].
    cbv zeta. destruct (Z.eqb_spec r (-2)) as [->|Hne].
    { exists []. split; [constructor|]. right. left. exists entry, (-2).
      cbn. repeat split; auto; lia. }
    destruct (Z.ltb_spec r 0) as [Hneg|Hpos].
    { exists []. split; [constructor|]. right. left. exists entry, r.
      destruct (Z.eqb_spec r (-2)); [lia|]. cbn. repeat split; auto. }
    destruct (listFn entry u) as [u2 [v|]].
    { exists []. split; [constructor|]. right. right. exists entry, r, v.
      cbn. rewrite <- app_assoc. repeat split; auto. }
    destruct (IH (State u2 ((trace s ++ [Ev_list_next ctx entry r])
                              ++ [Ev_listFn entry])))
      as (fetched & Hall & Hrun).
    exists ((entry, r) :: fetched). split; [constructor; auto|].
    cbn [trace] in *.
    destruct (ListObjects_loop lib fuel listFn ctx _) as [s' res].
    cbn [fetch_and_visit flat_map fst snd length] in *.
    fold (fetch_and_visit ctx fetched).
    destruct Hrun as [(-> & Hlen & Ht) | [(e & c & Hc & -> & Ht)
                                         | (e & c & p & Hc & -> & Ht)]];
      rewrite Ht, <- !app_assoc.
    + left. repeat split; auto.
    + right. left. exists e, c. repeat split; auto.
    + right. right. exists e, c, p. repeat split; auto.
Qed.

Lemma fetch_and_visit_no_close ctx fetched :
  Forall (fun e => forall c, e <> Ev_list_close c) (fetch_and_visit ctx fetched).
Proof.
  induction fetched as [|e fetched IH]; cbn; repeat constructor; auto; congruence.
Qed.

(** [ListObjects] with its first call and its deferred call spelled out. *)
Lemma ListObjects_unfold fuel io s :
  ListObjects lib fuel io listFn s =
    let '(u, (ctx, ret)) := rados_objects_list_open lib (ioctx io) (world s) in
    let s1 := State u (trace s ++ [Ev_list_open (ioctx io) ctx ret]) in
    if ret <? 0 then (s1, Returns (RadosError ret))
    else
      match ListObjects_loop lib fuel listFn ctx s1 with
      | (s', OutOfFuel) => (s', OutOfFuel)
      | (s', r) => (State (rados_objects_list_close lib ctx (world s'))
                          (trace s' ++ [Ev_list_close ctx]), r)
      end.
Proof.
  unfold ListObjects, bind, ccall, pure, defer, list_close.
  destruct (rados_objects_list_open lib (ioctx io) (world s)) as [u [ctx r]].
  cbn [fst snd]. destruct (r <? 0); [reflexivity|].
  destruct (ListObjects_loop lib fuel listFn ctx _) as [s' [e|p|]]; reflexivity.
Qed.

(** Every run of the loop, with the worlds: [k] entries are fetched with a
    non-negative status and visited, each visit in the world its fetch left
    and each fetch in the world the visit before it left; then the
    unrolling is used up, or the next fetch has a negative status and ends
    the loop, or the visitor panics on the entry of the next fetch. *)
Lemma ListObjects_loop_run_worlds ctx fuel : forall s,
  let run := ListObjects_loop lib fuel listFn ctx s in
  exists k, (k <= fuel)%nat /\ visited lib listFn ctx k (world s) /\
    let u := world_after_visits lib listFn ctx k (world s) in
    let log := trace s ++ fetch_and_visit ctx (entries_fetched lib listFn ctx k (world s)) in
    let f := rados_objects_list_next lib ctx u in
    let v := listFn (fst (snd f)) (fst f) in
    ((k = fuel /\ run = (State u log, OutOfFuel)) \/
     ((k < fuel)%nat /\ snd (snd f) < 0 /\
      run = (State (fst f) (log ++ [Ev_list_next ctx (fst (snd f)) (snd (snd f))]),
             Returns (if snd (snd f) =? -2 then nil_error
                      else RadosError (snd (snd f))))) \/
     ((k < fuel)%nat /\ 0 <= snd (snd f) /\
      exists p, snd v = Some p /\
        run = (State (fst v)
                 (log ++ [Ev_list_next ctx (fst (snd f)) (snd (snd f));
                          Ev_listFn (fst (snd f))]),
               Panics p))).
Proof.
  induction fuel as [|fuel IH]; intros s; cbv zeta.
  - exists 0%nat. split; [lia|]. split; [exact I|]. left.
    cbn [world_after_visits entries_fetched fetch_and_visit flat_map
           ListObjects_loop eval].
    rewrite app_nil_r. destruct s. auto.
  - rewrite ListObjects_loop_step.
    destruct (rados_objects_list_next lib ctx (world s)) as [u [entry r]] eqn:Hf.
    cbv zeta. destruct (Z.eqb_spec r (-2)) as [->|Hne].
    { exists 0%nat. split; [lia|]. split; [exact I|]. right. left.
      cbn [world_after_visits entries_fetched fetch_and_visit flat_map].
      rewrite Hf, app_nil_r. cbn [fst snd]. repeat split; auto; lia. }
    destruct (Z.ltb_spec r 0) as [Hneg|Hpos].
    { exists 0%nat. split; [lia|]. split; [exact I|]. right. left.
      cbn [world_after_visits entries_fetched fetch_and_visit flat_map].
      rewrite Hf, app_nil_r. cbn [fst snd].
      destruct (Z.eqb_spec r (-2)); [lia|]. repeat split; auto; lia. }
    destruct (listFn entry u) as [u2 [p|]] eqn:Hv.
    { exists 0%nat. split; [lia|]. split; [exact I|]. right. right.
      cbn [world_after_visits entries_fetched fetch_and_visit flat_map].
      rewrite Hf, app_nil_r. cbn [fst snd]. rewrite Hv. cbn [fst snd].
      split; [lia|]. split; [exact Hpos|]. exists p. split; [reflexivity|].
      cbn [trace]. rewrite <- app_assoc. reflexivity. }
    cbn [trace].
    set (s2 := State u2 ((trace s ++ [Ev_list_next ctx entry r]) ++ [Ev_listFn entry])).
    destruct (IH s2) as (k & Hk & Hvis & Hrun).
    assert (fetch_then_visit lib listFn ctx (world s) = u2) as Hw
      by (unfold fetch_then_visit; rewrite Hf; cbn [fst snd]; rewrite Hv; reflexivity).
    exists (S k). split; [lia|]. split.
    { cbn [visited]. rewrite Hf. cbn [fst snd]. rewrite Hv, Hw. cbn [snd].
      repeat split; auto. }
    cbn [world_after_visits entries_fetched fetch_and_visit flat_map].
    fold (fetch_and_visit ctx
            (entries_fetched lib listFn ctx k (fetch_then_visit lib listFn ctx (world s)))).
    rewrite Hw, Hf. cbn [fst snd].
    change (world s2) with u2 in Hrun.
    change (trace s2)
      with ((trace s ++ [Ev_list_next ctx entry r]) ++ [Ev_listFn entry]) in Hrun.
    rewrite <- !app_assoc in Hrun. cbn [app] in Hrun.
    destruct Hrun as [(-> & Hrun) | [(Hlt & Hc & Hrun) | (Hlt & Hc & p & Hp & Hrun)]].
    + left. split; [reflexivity | exact Hrun].
    + right. left. split; [lia|]. split; [exact Hc|].
      rewrite Hrun, <- !app_assoc. reflexivity.
    + right. right. split; [lia|]. split; [exact Hc|]. exists p.
      split; [exact Hp|]. rewrite Hrun, <- !app_assoc. reflexivity.
Qed.

(** C5: [ListObjects] against any library and any visitor.  When opening
    the cursor has a negative status, [RadosError] of it is returned after
    that one call.  Otherwise [k] entries are fetched with a non-negative
    status, each from the world the visit before it left, and the visitor
    is applied to the name of each, once, in the world the fetch left,
    before the next fetch; then the next fetch has a negative status, the
    cursor is closed and the result is nil for the status -2 and
    [RadosError] of the status for any other; or the visitor panics on the
    entry of the next fetch, the cursor is closed and the panic goes on.  A
    run that has not ended has fetched and visited as many entries as the
    loop was unrolled. *)
Theorem ListObjects_visits_each_fetched_name (fuel : nat) (io : IOContext)
    (s : state U) :
  let opened := rados_objects_list_open lib (ioctx io) (world s) in
  let ctx := fst (snd opened) in
  let ret := snd (snd opened) in
  let log1 := trace s ++ [Ev_list_open (ioctx io) ctx ret] in
  let run := ListObjects lib fuel io listFn s in
  (ret < 0 -> run = (State (fst opened) log1, Returns (RadosError ret))) /\
  (0 <= ret ->
     exists k, (k <= fuel)%nat /\ visited lib listFn ctx k (fst opened) /\
       let u := world_after_visits lib listFn ctx k (fst opened) in
       let log := log1 ++ fetch_and_visit ctx
                            (entries_fetched lib listFn ctx k (fst opened)) in
       let f := rados_objects_list_next lib ctx u in
       let v := listFn (fst (snd f)) (fst f) in
       ((k = fuel /\ run = (State u log, OutOfFuel)) \/
        ((k < fuel)%nat /\ snd (snd f) < 0 /\
         run = (State (rados_objects_list_close lib ctx (fst f))
                  (log ++ [Ev_list_next ctx (fst (snd f)) (snd (snd f));
                           Ev_list_close ctx]),
                Returns (if snd (snd f) =? -2 then nil_error
                         else RadosError (snd (snd f))))) \/
        ((k < fuel)%nat /\ 0 <= snd (snd f) /\
         exists p, snd v = Some p /\
           run = (State (rados_objects_list_close lib ctx (fst v))
                    (log ++ [Ev_list_next ctx (fst (snd f)) (snd (snd f));
                             Ev_listFn (fst (snd f)); Ev_list_close ctx]),
                  Panics p)))).
Proof.
  cbv zeta. rewrite ListObjects_unfold.
  destruct (rados_objects_list_open lib (ioctx io) (world s)) as [u1 [ctx r]].
  cbn [fst snd]. destruct (Z.ltb_spec r 0) as [Hneg|Hpos].
  { split; [auto | lia]. }
  split; [lia|]. intros _.
  destruct (ListObjects_loop_run_worlds ctx fuel
              (State u1 (trace s ++ [Ev_list_open (ioctx io) ctx r])))
    as (k & Hk & Hvis & Hrun).
  exists k. split; [exact Hk|]. split; [exact Hvis|].
  cbn [world trace] in Hrun. cbv zeta in Hrun.
  destruct Hrun as [(-> & ->) | [(Hlt & Hc & ->) | (Hlt & Hc & p & Hp & ->)]].
  - left. auto.
  - right. left. split; [exact Hlt|]. split; [exact Hc|].
    cbn [world trace]. rewrite <- !app_assoc. reflexivity.
  - right. right. split; [exact Hlt|]. split; [exact Hc|]. exists p.
    split; [exact Hp|]. cbn [world trace]. rewrite <- !app_assoc. reflexivity.
Qed.

(** C6: when the cursor was opened (the status of the open call is not
    negative) and [ListObjects] exits, by a return or by a panic of the
    visitor, the last thing it did is to close that cursor, and it did not
    close it before: the log ends with the close call, the entries between
    the open call and it contain no close call, and the world is the one the
    close call left. *)
Theorem ListObjects_closes_its_cursor (fuel : nat) (io : IOContext) (s : state U) :
  let opened := snd (rados_objects_list_open lib (ioctx io) (world s)) in
  let ctx := fst opened in
  let ret := snd opened in
  let run := ListObjects lib fuel io listFn s in
  0 <= ret ->
  exited (snd run) = true ->
  exists (mid : list event) (u : U),
    trace (fst run) = trace s ++ [Ev_list_open (ioctx io) ctx ret] ++ mid
                        ++ [Ev_list_close ctx] /\
    Forall (fun e => forall c, e <> Ev_list_close c) mid /\
    world (fst run) = rados_objects_list_close lib ctx u.
Proof.
  cbv zeta. rewrite ListObjects_unfold.
  destruct (rados_objects_list_open lib (ioctx io) (world s)) as [u [ctx r]].
  cbn [fst snd]. intros Hpos.
  destruct (Z.ltb_spec r 0) as [Hneg|_]; [lia|].
  destruct (ListObjects_loop_run ctx fuel
              (State u (trace s ++ [Ev_list_open (ioctx io) ctx r])))
    as (fetched & Hall & Hrun).
  destruct (ListObjects_loop lib fuel listFn ctx _) as [s' res].
  cbn [fst snd trace] in Hrun.
  destruct Hrun as [(-> & Hlen & Ht) | [(e & c & Hc & -> & Ht)
                                       | (e & c & p & Hc & -> & Ht)]];
    cbn [fst snd trace world exited]; intros Hexit; try discriminate.
  - exists (fetch_and_visit ctx fetched ++ [Ev_list_next ctx e c]), (world s').
    rewrite Ht, <- !app_assoc. repeat split; auto.
    apply Forall_app. split; [apply fetch_and_visit_no_close|].
    repeat constructor; congruence.
  - exists (fetch_and_visit ctx fetched ++ [Ev_list_next ctx e c; Ev_listFn e]),
           (world s').
    rewrite Ht, <- !app_assoc. repeat split; auto.
    apply Forall_app. split; [apply fetch_and_visit_no_close|].
    repeat constructor; congruence.
Qed.

End ListFacts.

(** ** Write, then read: on the in-memory cluster *)

Section RoundTrip.

Import MemStore.

Lemma length_write_prefix (old : list byte) (off : nat) :
  length (take off old ++ replicate (off - length old) x00) = off.
Proof. rewrite length_app, length_take, length_replicate. lia. Qed.

(** What was laid over an object at [off] is what the object holds there. *)
Lemma write_at_read_back (old data : list byte) (off : nat) :
  take (length data) (drop off (write_at old data off)) = data.
Proof.
  unfold write_at. rewrite (app_assoc (take off old)).
  rewrite drop_app_length' by (symmetry; apply length_write_prefix).
  apply take_app_length.
Qed.

(** A buffer filled over its whole length holds what was stored. *)
Lemma poke_whole (buf data : list byte) :
  length buf = length data -> poke buf data = data.
Proof.
  intros Hlen. unfold poke. rewrite Hlen, <- Hlen, drop_all, app_nil_r.
  rewrite Hlen. apply take_ge. lia.
Qed.


End RoundTrip.

(** * Runs on concrete libraries *)

(** [Write] with an empty slice on the in-memory cluster: the panic, and a
    cluster that holds no object afterwards. *)
Example Write_empty_on_MemStore :
  Write (MemStore.lib []) io0 "obj" [] 0%N (start MemStore.empty)
  = (start MemStore.empty, Panics (IndexOutOfRange 0 0)).
Proof. reflexivity. Qed.

(** The status 1 is not negative, and [Write], [Delete] and [Truncate] all
    turn it into an error: a non-negative status is not always success. *)
Lemma positive_status_is_reported_as_error :
  0 <= 1 /\
  snd (Write (const_lib 1) io0 "obj" [x01] 0%N (start tt)) = Returns (RadosError 1) /\
  snd (Delete (const_lib 1) io0 "obj" (start tt)) = Returns (RadosError 1) /\
  snd (Truncate (const_lib 1) io0 "obj" 4%N (start tt)) = Returns (RadosError 1) /\
  RadosError 1 <> nil_error.
Proof. repeat split; try reflexivity; try discriminate. Qed.

(** The statuses 0 and 5 through [Write], [Delete] and [Truncate]. *)
Lemma zero_status_is_the_only_success_witness :
  (0 < length [x01])%nat /\
  snd (Write (const_lib 0) io0 "obj" [x01] 0%N (start tt)) = Returns nil_error /\
  snd (Delete (const_lib 5) io0 "obj" (start tt)) = Returns (RadosError 5) /\
  snd (Truncate (const_lib (-5)) io0 "obj" 4%N (start tt)) = Returns (RadosError (-5)).
Proof.
  assert (0 < length [x01])%nat as Hlen by (simpl; lia).
  split; [exact Hlen|]. split; [|split].
  - apply (zero_status_is_the_only_success (const_lib 0) io0 "obj" [x01]
             0%N 4%N (start tt) Hlen). reflexivity.
  - apply (zero_status_is_the_only_success (const_lib 5) io0 "obj" [x01]
             0%N 4%N (start tt) Hlen). discriminate.
  - apply (zero_status_is_the_only_success (const_lib (-5)) io0 "obj" [x01]
             0%N 4%N (start tt) Hlen). discriminate.
Defined.



(** Two objects and a visitor that panics on the first name: the panic
    leaves [ListObjects], and the cursor is closed on the way out. *)
Lemma ListObjects_closes_its_cursor_on_panic :
  let run := ListObjects (MemStore.lib []) 5 io0 panicking_visitor (start two_objects) in
  snd run = Panics (PanicValue "boom") /\
  MemStore.cursors (world (fst run)) = ∅ /\
  exists (mid : list event) (u : MemStore.cluster),
    trace (fst run) = [] ++ [Ev_list_open 1%N 0%N 0] ++ mid ++ [Ev_list_close 0%N] /\
    Forall (fun e => forall c, e <> Ev_list_close c) mid /\
    world (fst run) = rados_objects_list_close (MemStore.lib []) 0%N u.
Proof.
  cbv zeta. split; [vm_compute; reflexivity|]. split; [vm_compute; reflexivity|].
  apply (ListObjects_closes_its_cursor (MemStore.lib []) panicking_visitor 5 io0
           (start two_objects)).
  - cbn. lia.
  - vm_compute. reflexivity.
Defined.



(** A buffer of four bytes for the two-byte object [b]: the count is 2 and
    the two bytes are in front of the buffer. *)
Lemma Read_count_or_error_witness :
  (0 < length [x00; x00; x00; x00])%nat /\
  snd (Read (MemStore.lib []) io0 "b" [x00; x00; x00; x00] 0%N (start two_objects))
    = Returns ([x02; x03; x00; x00], (2, nil_error)).
Proof.
  assert (0 < length [x00; x00; x00; x00])%nat as Hlen by (simpl; lia).
  split; [exact Hlen|].
  apply (Read_count_or_error (MemStore.lib []) io0 "b" [x00; x00; x00; x00] 0%N
           (start two_objects) Hlen).
  vm_compute. discriminate.
Defined.

(** Reading an object that does not exist: the error, and the count 0. *)
Lemma Read_error_count_zero_witness :
  snd (Read (MemStore.lib []) io0 "c" [x00; x00] 0%N (start two_objects))
    = Returns ([x00; x00], (0, RadosError (-2))) /\
  0 = 0.
Proof.
  assert (snd (Read (MemStore.lib []) io0 "c" [x00; x00] 0%N (start two_objects))
          = Returns ([x00; x00], (0, RadosError (-2)))) as Hrun
    by (vm_compute; reflexivity).
  split; [exact Hrun|].
  apply (Read_error_count_zero (MemStore.lib []) io0 "c" [x00; x00] [x00; x00] 0%N
           (start two_objects) 0 (RadosError (-2)) Hrun).
  discriminate.
Defined.

(** Listing the two objects with a visitor that does nothing: every name is
    fetched and visited once, the status -2 ends the listing with nil, and
    the cursor is closed. *)
Example ListObjects_two_objects :
  let run := ListObjects (MemStore.lib []) 3 io0 quiet_visitor (start two_objects) in
  snd run = Returns nil_error /\
  trace (fst run) =
    [Ev_list_open 1%N 0%N 0;
     Ev_list_next 0%N "a" 0; Ev_listFn "a";
     Ev_list_next 0%N "b" 0; Ev_listFn "b";
     Ev_list_next 0%N "" (-2); Ev_list_close 0%N] /\
  MemStore.cursors (world (fst run)) = ∅.
Proof. vm_compute. repeat split; reflexivity. Qed.

(** An empty pool: the first fetch ends the listing. *)
Example ListObjects_empty_pool :
  let run := ListObjects (MemStore.lib []) 1 io0 quiet_visitor (start MemStore.empty) in
  snd run = Returns nil_error /\
  trace (fst run) =
    [Ev_list_open 1%N 0%N 0; Ev_list_next 0%N "" (-2); Ev_list_close 0%N].
Proof. vm_compute. repeat split; reflexivity. Qed.

(** A library that fails every call with -5: the name is empty. *)
Example GetPoolName_hard_failure :
  GetPoolName (const_lib (-5)) 1 io0 (start tt)
  = (State tt [pool_name_call io0 0 [] (-5)], Returns (""%string, RadosError (-5))).
Proof. vm_compute. reflexivity. Qed.

(** A snapshot id allocated on the in-memory cluster, and a failed
    allocation. *)
Example CreateManagedSnapshot_runs :
  snd (CreateManagedSnapshot (MemStore.lib []) io0 (start MemStore.empty))
    = Returns (Some 0%N, nil_error) /\
  snd (CreateManagedSnapshot (const_lib (-1)) io0 (start tt))
    = Returns (None, RadosError (-1)).
Proof. split; reflexivity. Qed.

(** * The rest of the binding *)

Section PoolFacts.

Context {U : Type} (lib : librados U) (plib : librados_pool U).

(** X1: [CreatePoolSnapshot], [RemovePoolSnapshot] and [RollbackObject] make
    their one call with the names they were given and return nil exactly
    when its status is not negative, a positive status included, and
    [RadosError] of the status when it is negative. *)
Theorem pool_snapshot_nil_iff_status_not_negative (io : IOContext)
    (name oid : string) (s : state U) :
  let c := rados_ioctx_snap_create plib (ioctx io) name (world s) in
  let r := rados_ioctx_snap_remove plib (ioctx io) name (world s) in
  let b := rados_ioctx_snap_rollback plib (ioctx io) oid name (world s) in
  ((snd (CreatePoolSnapshot plib io name s) = Returns nil_error <-> 0 <= snd c) /\
   (snd c < 0 -> snd (CreatePoolSnapshot plib io name s) = Returns (RadosError (snd c))) /\
   world (fst (CreatePoolSnapshot plib io name s)) = fst c) /\
  ((snd (RemovePoolSnapshot plib io name s) = Returns nil_error <-> 0 <= snd r) /\
   (snd r < 0 -> snd (RemovePoolSnapshot plib io name s) = Returns (RadosError (snd r))) /\
   world (fst (RemovePoolSnapshot plib io name s)) = fst r) /\
  ((snd (RollbackObject plib io oid name s) = Returns nil_error <-> 0 <= snd b) /\
   (snd b < 0 -> snd (RollbackObject plib io oid name s) = Returns (RadosError (snd b))) /\
   world (fst (RollbackObject plib io oid name s)) = fst b).
Proof.
  cbv zeta. unfold CreatePoolSnapshot, RemovePoolSnapshot, RollbackObject, bind, call, pure.
  destruct (rados_ioctx_snap_create plib _ _ _) as [uc c].
  destruct (rados_ioctx_snap_remove plib _ _ _) as [ur r].
  destruct (rados_ioctx_snap_rollback plib _ _ _ _) as [ub b]. cbn [fst snd].
  destruct (Z.ltb_spec c 0), (Z.ltb_spec r 0), (Z.ltb_spec b 0); cbn [fst snd world];
    repeat split; intros; solve [reflexivity | lia | congruence].
Qed.

(** X2: with a non-nil pointer, [RemoveManagedSnapshot] and
    [RollbackManagedObject] pass the snapshot id the pointer holds and
    return nil exactly when the status is not negative, [RadosError] of it
    otherwise; [SetReadSnapshot] passes the id and returns. *)
Theorem managed_snapshot_nil_iff_status_not_negative (io : IOContext)
    (oid : string) (snap : Snapshot) (s : state U) :
  let r := rados_ioctx_selfmanaged_snap_remove plib (ioctx io) snap (world s) in
  let b := rados_ioctx_selfmanaged_snap_rollback plib (ioctx io) oid snap (world s) in
  ((snd (RemoveManagedSnapshot plib io (Some snap) s) = Returns nil_error <-> 0 <= snd r) /\
   (snd r < 0 ->
      snd (RemoveManagedSnapshot plib io (Some snap) s) = Returns (RadosError (snd r))) /\
   world (fst (RemoveManagedSnapshot plib io (Some snap) s)) = fst r) /\
  ((snd (RollbackManagedObject plib io oid (Some snap) s) = Returns nil_error
      <-> 0 <= snd b) /\
   (snd b < 0 ->
      snd (RollbackManagedObject plib io oid (Some snap) s) = Returns (RadosError (snd b))) /\
   world (fst (RollbackManagedObject plib io oid (Some snap) s)) = fst b) /\
  SetReadSnapshot plib io (Some snap) s
    = (State (rados_ioctx_snap_set_read plib (ioctx io) snap (world s)) (trace s),
       Returns tt).
Proof.
  cbv zeta.
  unfold RemoveManagedSnapshot, RollbackManagedObject, SetReadSnapshot,
    bind, call, pure, eval, deref.
  destruct (rados_ioctx_selfmanaged_snap_remove plib _ _ _) as [ur r].
  destruct (rados_ioctx_selfmanaged_snap_rollback plib _ _ _ _) as [ub b].
  cbn [fst snd].
  destruct (Z.ltb_spec r 0), (Z.ltb_spec b 0); cbn [fst snd world];
    repeat split; intros; solve [reflexivity | lia | congruence].
Qed.

(** X3: with the nil pointer, [SetReadSnapshot], [RemoveManagedSnapshot] and
    [RollbackManagedObject] panic on [*snap]; the state is as before, so
    the library was not called. *)
Theorem nil_snapshot_pointer_panics (io : IOContext) (oid : string) (s : state U) :
  SetReadSnapshot plib io None s = (s, Panics nil_dereference) /\
  RemoveManagedSnapshot plib io None s = (s, Panics nil_dereference) /\
  RollbackManagedObject plib io oid None s = (s, Panics nil_dereference).
Proof. repeat split. Qed.

(** X4: the pointer [CreateManagedSnapshot] returns can be used exactly when
    its error is nil.  With a nil error the pointer holds the id the library
    stored, and [RemoveManagedSnapshot], [RollbackManagedObject] and
    [SetReadSnapshot] return when given it; with a non-nil error each of the
    three panics on it before it reaches the library. *)
Theorem managed_snapshot_pointer_usable_iff_no_error (io : IOContext) (oid : string)
    (s s1 : state U) (p : option Snapshot) (err : error) :
  CreateManagedSnapshot lib io s = (s1, Returns (p, err)) ->
  (err = nil_error ->
     p = Some (fst (snd (rados_ioctx_selfmanaged_snap_create lib (ioctx io) (world s)))) /\
     (exists e, snd (RemoveManagedSnapshot plib io p s1) = Returns e) /\
     (exists e, snd (RollbackManagedObject plib io oid p s1) = Returns e) /\
     snd (SetReadSnapshot plib io p s1) = Returns tt) /\
  (err <> nil_error ->
     RemoveManagedSnapshot plib io p s1 = (s1, Panics nil_dereference) /\
     RollbackManagedObject plib io oid p s1 = (s1, Panics nil_dereference) /\
     SetReadSnapshot plib io p s1 = (s1, Panics nil_dereference)).
Proof.
  unfold CreateManagedSnapshot, bind, ccall, pure.
  destruct (rados_ioctx_selfmanaged_snap_create lib _ _) as [u [snap r]].
  cbn [fst snd]. intros Hrun.
  destruct (r <? 0); injection Hrun as <- <- <-.
  - split; [discriminate|]. intros _. repeat split.
  - split; [|congruence]. intros _. split; [reflexivity|].
    unfold RemoveManagedSnapshot, RollbackManagedObject, SetReadSnapshot,
      bind, call, pure, eval, deref.
    destruct (rados_ioctx_selfmanaged_snap_remove plib _ _ _) as [ur rr].
    destruct (rados_ioctx_selfmanaged_snap_rollback plib _ _ _ _) as [ub rb].
    cbn [fst snd]. repeat split.
    + destruct (rr <? 0); eexists; reflexivity.
    + destruct (rb <? 0); eexists; reflexivity.
Qed.

(** X5: [GetPoolStats] returns the zero [PoolStat] with [RadosError] of the
    status when the status is negative, whatever the library stored in the
    structure; otherwise it returns a nil error and every counter of the
    structure in the field of the same name. *)
Theorem GetPoolStats_zero_or_counters (io : IOContext) (s : state U) :
  let c := snd (rados_ioctx_pool_stat plib (ioctx io) (world s)) in
  let c_stat := fst c in
  let ret := snd c in
  let got := snd (GetPoolStats plib io s) in
  (ret < 0 -> got = Returns (PoolStat_zero, RadosError ret)) /\
  (0 <= ret ->
     exists stat, got = Returns (stat, nil_error) /\
       Num_bytes stat = num_bytes c_stat /\
       Num_kb stat = num_kb c_stat /\
       Num_objects stat = num_objects c_stat /\
       Num_object_clones stat = num_object_clones c_stat /\
       Num_object_copies stat = num_object_copies c_stat /\
       Num_objects_missing_on_primary stat = num_objects_missing_on_primary c_stat /\
       Num_objects_unfound stat = num_objects_unfound c_stat /\
       Num_objects_degraded stat = num_objects_degraded c_stat /\
       Num_rd stat = num_rd c_stat /\
       Num_rd_kb stat = num_rd_kb c_stat /\
       Num_wr stat = num_wr c_stat /\
       Num_wr_kb stat = num_wr_kb c_stat).
Proof.
  cbv zeta. unfold GetPoolStats, bind, call, pure.
  destruct (rados_ioctx_pool_stat plib _ _) as [u [c_stat r]]. cbn [fst snd].
  destruct (Z.ltb_spec r 0); split; intros Hr; try lia; [reflexivity|].
  eexists. split; [reflexivity|]. cbn. repeat split.
Qed.

(** X6: [Destroy] hands the handle to [rados_ioctx_destroy] and keeps no
    note of it.  A second [Destroy] calls [rados_ioctx_destroy] on the same
    handle again, and a [Write] after [Destroy] still calls [rados_write]
    with that handle, on the world the destroy call left. *)
Theorem Destroy_does_not_disable_the_context (io : IOContext) (oid : string)
    (data : list byte) (offset : N) (s : state U) :
  (0 < length data)%nat ->
  let s1 := fst (Destroy plib io s) in
  let w := rados_write lib (ioctx io) oid data (N.of_nat (length data)) offset
             (world s1) in
  Destroy plib io s
    = (State (rados_ioctx_destroy plib (ioctx io) (world s)) (trace s), Returns tt) /\
  Destroy plib io s1
    = (State (rados_ioctx_destroy plib (ioctx io)
                (rados_ioctx_destroy plib (ioctx io) (world s))) (trace s),
       Returns tt) /\
  Write lib io oid data offset s1
    = (State (fst w)
         (trace s ++ [Ev_write (ioctx io) oid data (N.of_nat (length data)) offset (snd w)]),
       Returns (if snd w =? 0 then nil_error else RadosError (snd w))).
Proof.
  intros Hlen. cbv zeta. repeat split.
  rewrite (Write_nonempty _ _ _ _ _ _ Hlen). cbn [Destroy call fst world trace].
  destruct (rados_write lib _ _ _ _ _ _) as [u r]. reflexivity.
Qed.

(** X7: the panics of the object methods, called through a receiver that
    may be nil.  [Write] panics exactly when the receiver is nil or [data]
    is empty; [Read] exactly when the receiver is nil and the buffer is not
    empty; [Delete] and [Truncate] exactly when the receiver is nil.  A
    call that panics leaves the state as it was: the library was not
    reached. *)
Theorem object_methods_panic_exactly_when (recv : option IOContext) (oid : string)
    (data : list byte) (offset size : N) (s : state U) :
  (((exists p, snd (Write_ptr lib recv oid data offset s) = Panics p)
      <-> recv = None \/ data = []) /\
   ((exists p, snd (Read_ptr lib recv oid data offset s) = Panics p)
      <-> recv = None /\ data <> []) /\
   ((exists p, snd (Delete_ptr lib recv oid s) = Panics p) <-> recv = None) /\
   ((exists p, snd (Truncate_ptr lib recv oid size s) = Panics p) <-> recv = None)) /\
  (forall p,
     (snd (Write_ptr lib recv oid data offset s) = Panics p ->
        fst (Write_ptr lib recv oid data offset s) = s) /\
     (snd (Read_ptr lib recv oid data offset s) = Panics p ->
        fst (Read_ptr lib recv oid data offset s) = s) /\
     (snd (Delete_ptr lib recv oid s) = Panics p ->
        fst (Delete_ptr lib recv oid s) = s) /\
     (snd (Truncate_ptr lib recv oid size s) = Panics p ->
        fst (Truncate_ptr lib recv oid size s) = s)).
Proof.
  unfold Write_ptr, Read_ptr, Delete_ptr, Truncate_ptr, through.
  assert (forall io, exists e, snd (Delete lib io oid s) = Returns e) as HD.
  { intros io. unfold Delete, bind, ccall, pure.
    destruct (rados_remove lib _ _ _) as [u r]. destruct (r =? 0); eexists; reflexivity. }
  assert (forall io, exists e, snd (Truncate lib io oid size s) = Returns e) as HT.
  { intros io. unfold Truncate, bind, ccall, pure.
    destruct (rados_trunc lib _ _ _ _) as [u r]. destruct (r =? 0); eexists; reflexivity. }
  assert (forall io b d, exists e, snd (Write lib io oid (b :: d) offset s) = Returns e)
    as HW.
  { intros io b d. rewrite Write_nonempty by (simpl; lia).
    destruct (rados_write lib _ _ _ _ _ _) as [u r]. eexists. reflexivity. }
  assert (forall io b d, exists e, snd (Read lib io oid (b :: d) offset s) = Returns e)
    as HR.
  { intros io b d. rewrite Read_nonempty by (simpl; lia).
    destruct (rados_read lib _ _ _ _ _) as [u [w r]]. eexists. reflexivity. }
  destruct recv as [io|].
  - destruct (HD io) as [eD HeD]. destruct (HT io) as [eT HeT].
    rewrite HeD, HeT. destruct data as [|b d].
    + split; [split; [|split; [|split]] |].
      * split; [intros _; right; reflexivity | intros _; eexists; reflexivity].
      * split; [intros [q Hq]; discriminate | intros [Hn _]; discriminate].
      * split; [intros [q Hq]; discriminate | discriminate].
      * split; [intros [q Hq]; discriminate | discriminate].
      * intros p. split; [intros _; reflexivity|]. repeat split; discriminate.
    + destruct (HW io b d) as [eW HeW]. destruct (HR io b d) as [eR HeR].
      cbn [length Nat.eqb]. rewrite HeW, HeR.
      split; [split; [|split; [|split]] |].
      * split; [intros [q Hq]; discriminate | intros [Hn|Hn]; discriminate].
      * split; [intros [q Hq]; discriminate | intros [Hn _]; discriminate].
      * split; [intros [q Hq]; discriminate | discriminate].
      * split; [intros [q Hq]; discriminate | discriminate].
      * intros p. repeat split; discriminate.
  - destruct data as [|b d]; cbn [length Nat.eqb eval pure fst snd].
    + split; [split; [|split; [|split]] |].
      * split; [intros _; left; reflexivity | intros _; eexists; reflexivity].
      * split; [intros [q Hq]; discriminate | intros [_ Hn]; congruence].
      * split; [reflexivity | intros _; eexists; reflexivity].
      * split; [reflexivity | intros _; eexists; reflexivity].
      * intros p. repeat split.
    + split; [split; [|split; [|split]] |].
      * split; [intros _; left; reflexivity | intros _; eexists; reflexivity].
      * split; [intros _; split; [reflexivity | discriminate]
               | intros _; eexists; reflexivity].
      * split; [reflexivity | intros _; eexists; reflexivity].
      * split; [reflexivity | intros _; eexists; reflexivity].
      * intros p. repeat split.
Qed.

End PoolFacts.


(** ** More on [ListObjects] *)

Section ListPanics.

Context {U : Type} (lib : librados U).

(** X11: where a panic of [ListObjects] comes from, for a receiver and a
    visitor that may be nil.  Either the receiver is nil, and the method
    panics with the nil dereference before it reaches the library; or the
    cursor was opened, some entries were fetched and visited, the next
    fetch had a non-negative status and the visitor, called on the name
    fetched in the world the fetch left, panicked with that value (the nil
    dereference when the visitor is the nil func). *)
Theorem ListObjects_panics_only_with_its_visitor (fuel : nat)
    (recv : option IOContext) (listFn : option (ObjectListFunc U))
    (s : state U) (p : panic_value) :
  snd (ListObjects_ptr lib fuel recv listFn s) = Panics p ->
  (recv = None /\ p = nil_dereference /\
   fst (ListObjects_ptr lib fuel recv listFn s) = s) \/
  (exists io, recv = Some io /\
     let g := visitor_of listFn in
     let opened := rados_objects_list_open lib (ioctx io) (world s) in
     let ctx := fst (snd opened) in
     0 <= snd (snd opened) /\
     exists k, (k < fuel)%nat /\ visited lib g ctx k (fst opened) /\
       let f := rados_objects_list_next lib ctx
                  (world_after_visits lib g ctx k (fst opened)) in
       0 <= snd (snd f) /\
       snd (g (fst (snd f)) (fst f)) = Some p /\
       (listFn = None -> p = nil_dereference)).
Proof.
  unfold ListObjects_ptr, through. destruct recv as [io|].
  - intros Hrun. right. exists io. split; [reflexivity|]. cbv zeta.
    rewrite ListObjects_unfold in Hrun.
    destruct (rados_objects_list_open lib (ioctx io) (world s)) as [u1 [ctx r]].
    cbn [fst snd] in *. destruct (Z.ltb_spec r 0) as [Hneg|Hpos];
      [cbn in Hrun; discriminate|].
    split; [exact Hpos|].
    destruct (ListObjects_loop_run_worlds lib (visitor_of listFn) ctx fuel
                (State u1 (trace s ++ [Ev_list_open (ioctx io) ctx r])))
      as (k & Hk & Hvis & Hloop).
    cbn [world trace] in Hloop, Hvis. cbv zeta in Hloop.
    destruct Hloop as [(_ & Hl) | [(_ & _ & Hl) | (Hlt & Hc & q & Hq & Hl)]];
      rewrite Hl in Hrun; cbn [fst snd] in Hrun; try discriminate.
    injection Hrun as <-.
    exists k. split; [exact Hlt|]. split; [exact Hvis|]. split; [exact Hc|].
    split; [exact Hq|].
    intros ->. cbn [visitor_of snd] in Hq. congruence.
  - cbn [eval fst snd]. intros [= <-]. left. auto.
Qed.

End ListPanics.

(** ** A cursor with a known script *)

Section ScriptedListing.

Lemma ListObjects_loop_scripted ctx (script : list (string * Z)) :
  forall (fuel : nat) (seen : list string) (t : list event),
  Forall (fun e => 0 <= snd e) script ->
  (length script < fuel)%nat ->
  ListObjects_loop scripted_list_lib fuel collect ctx (State (script, seen) t)
  = (State ([], seen ++ map fst script)
           (t ++ fetch_and_visit ctx script ++ [Ev_list_next ctx "" (-2)]),
     Returns nil_error).
Proof.
  induction script as [|[entry r] script IH]; intros fuel seen t Hall Hfuel;
    (destruct fuel as [|fuel]; [cbn in Hfuel; lia|]);
    rewrite ListObjects_loop_step; cbn [rados_objects_list_next scripted_list_lib
                                         world trace fst snd].
  - cbn. rewrite app_nil_r. reflexivity.
  - apply Forall_cons in Hall as [Hr Hall]. cbn [snd] in Hr.
    destruct (Z.eqb_spec r (-2)) as [E|_]; [lia|].
    destruct (Z.ltb_spec r 0) as [E|_]; [lia|].
    cbn [collect fst snd]. rewrite IH by (auto; cbn in Hfuel; lia).
    cbn [map fst fetch_and_visit flat_map]. fold (fetch_and_visit ctx script).
    rewrite <- !app_assoc. reflexivity.
Qed.

(** X12: a cursor that yields finitely many entries, each with a
    non-negative status, and then the status -2: once the loop is unrolled
    more often than there are entries, [ListObjects] returns nil, the
    collecting visitor has been given the names of the script, all of them,
    once each and in the order of the cursor, and the log is the open call,
    a fetch and a visit per entry, the final fetch and the close call. *)
Theorem ListObjects_visits_the_script_in_order (io : IOContext)
    (script : list (string * Z)) (fuel : nat) (seen : list string)
    (t : list event) :
  Forall (fun e => 0 <= snd e) script ->
  (length script < fuel)%nat ->
  ListObjects scripted_list_lib fuel io collect (State (script, seen) t)
  = (State ([], seen ++ map fst script)
           (t ++ [Ev_list_open (ioctx io) 0%N 0] ++ fetch_and_visit 0%N script
              ++ [Ev_list_next 0%N "" (-2); Ev_list_close 0%N]),
     Returns nil_error).
Proof.
  intros Hall Hfuel. rewrite ListObjects_unfold.
  cbn [rados_objects_list_open scripted_list_lib world trace fst snd].
  change (0 <? 0) with false. cbv iota.
  rewrite ListObjects_loop_scripted by assumption.
  cbn [rados_objects_list_close scripted_list_lib world trace].
  rewrite <- !app_assoc. reflexivity.
Qed.

End ScriptedListing.

(** * More runs on concrete libraries *)

Lemma MemStore_reports_too_small (name : list byte) (io : IOContext) :
  reports_too_small (MemStore.lib name) io (N.of_nat (length name) + 1).
Proof.
  intros maxlen u Hlt. cbn [rados_ioctx_get_pool_name MemStore.lib].
  destruct (N.leb_spec maxlen (N.of_nat (length name))); [reflexivity | lia].
Qed.

Lemma MemStore_stores_name (name : list byte) (io : IOContext) :
  stores_name (MemStore.lib name) io name (N.of_nat (length name) + 1).
Proof.
  intros maxlen u Hle. exists [x00]. cbn [rados_ioctx_get_pool_name MemStore.lib].
  destruct (N.leb_spec maxlen (N.of_nat (length name))); [lia | reflexivity].
Qed.

(** A snapshot created with the status 0 and removed again: the pointer is
    usable; created with the status -1: it is not. *)
Lemma managed_snapshot_pointer_witness :
  (exists e, snd (RemoveManagedSnapshot (counting_pool_lib 0 some_stat) io0 (Some 7%N)
                    (State 1%nat [Ev_snap_create 1%N 7%N 0]))
             = Returns e) /\
  RemoveManagedSnapshot (counting_pool_lib 0 some_stat) io0 None
    (State 1%nat [Ev_snap_create 1%N 7%N (-1)])
    = (State 1%nat [Ev_snap_create 1%N 7%N (-1)], Panics nil_dereference).
Proof.
  split.
  - apply (managed_snapshot_pointer_usable_iff_no_error (counting_lib 0)
             (counting_pool_lib 0 some_stat) io0 "obj" (start 0%nat)
             (State 1%nat [Ev_snap_create 1%N 7%N 0]) (Some 7%N) nil_error
             eq_refl).
    reflexivity.
  - apply (managed_snapshot_pointer_usable_iff_no_error (counting_lib (-1))
             (counting_pool_lib 0 some_stat) io0 "obj" (start 0%nat)
             (State 1%nat [Ev_snap_create 1%N 7%N (-1)]) None (RadosError (-1))
             eq_refl).
    discriminate.
Defined.

(** Two [Destroy] calls and a [Write]: three calls reach the library. *)
Lemma Destroy_then_Write_witness :
  (0 < length [x01])%nat /\
  Write (counting_lib 0) io0 "obj" [x01] 0%N
    (fst (Destroy (counting_pool_lib 0 some_stat) io0
            (fst (Destroy (counting_pool_lib 0 some_stat) io0 (start 0%nat)))))
  = (State 3%nat [Ev_write 1%N "obj" [x01] 1 0 0], Returns nil_error).
Proof.
  assert (0 < length [x01])%nat as Hlen by (simpl; lia).
  split; [exact Hlen|].
  apply (Destroy_does_not_disable_the_context (counting_lib 0)
           (counting_pool_lib 0 some_stat) io0 "obj" [x01] 0%N
           (fst (Destroy (counting_pool_lib 0 some_stat) io0 (start 0%nat))) Hlen).
Defined.



(** The panic that leaves [ListObjects] is the one of the visitor, raised
    on the first name fetched. *)
Lemma ListObjects_panic_witness :
  snd (ListObjects_ptr (MemStore.lib []) 5 (Some io0) (Some panicking_visitor)
         (start two_objects))
    = Panics (PanicValue "boom") /\
  exists k, (k < 5)%nat /\
    snd (panicking_visitor "a"
           (fst (rados_objects_list_next (MemStore.lib []) 0%N
                   (world_after_visits (MemStore.lib []) panicking_visitor 0%N k
                      (fst (rados_objects_list_open (MemStore.lib []) 1%N two_objects))))))
    = Some (PanicValue "boom").
Proof.
  assert (snd (ListObjects_ptr (MemStore.lib []) 5 (Some io0) (Some panicking_visitor)
                 (start two_objects)) = Panics (PanicValue "boom")) as Hrun
    by (vm_compute; reflexivity).
  split; [exact Hrun|].
  destruct (ListObjects_panics_only_with_its_visitor (MemStore.lib []) 5 (Some io0)
              (Some panicking_visitor) (start two_objects) (PanicValue "boom") Hrun)
    as [(Hnil & _) | (io & Hio & _ & k & Hk & _ & _ & Hp & _)]; [discriminate|].
  injection Hio as <-. exists k. split; [exact Hk|]. reflexivity.
Defined.

(** The nil func as visitor: the nil dereference after the first fetch, and
    the cursor is closed. *)
Example ListObjects_nil_visitor :
  let run := ListObjects_ptr (MemStore.lib []) 5 (Some io0) None (start two_objects) in
  snd run = Panics nil_dereference /\
  trace (fst run) = [Ev_list_open 1%N 0%N 0; Ev_list_next 0%N "a" 0; Ev_listFn "a";
                     Ev_list_close 0%N].
Proof. vm_compute. split; reflexivity. Qed.

(** A script of three entries, one of them with a positive status. *)
Lemma ListObjects_script_witness :
  ListObjects scripted_list_lib 4 io0 collect
    (start ([("a"%string, 0); ("b"%string, 3); ("c"%string, 0)], []))
  = (State ([], ["a"; "b"; "c"]%string)
       [Ev_list_open 1%N 0%N 0;
        Ev_list_next 0%N "a" 0; Ev_listFn "a";
        Ev_list_next 0%N "b" 3; Ev_listFn "b";
        Ev_list_next 0%N "c" 0; Ev_listFn "c";
        Ev_list_next 0%N "" (-2); Ev_list_close 0%N],
     Returns nil_error).
Proof.
  apply (ListObjects_visits_the_script_in_order io0
           [("a"%string, 0); ("b"%string, 3); ("c"%string, 0)] 4 [] []).
  - repeat constructor; cbn; lia.
  - cbn. lia.
Defined.

(** Statistics through [GetPoolStats], and a failed query. *)
Example GetPoolStats_runs :
  snd (GetPoolStats (counting_pool_lib 0 some_stat) io0 (start 0%nat))
    = Returns (Build_PoolStat 1 2 3 4 5 6 7 8 9 10 11 12, nil_error) /\
  snd (GetPoolStats (counting_pool_lib (-5) some_stat) io0 (start 0%nat))
    = Returns (PoolStat_zero, RadosError (-5)).
Proof. split; reflexivity. Qed.

(** The status 1 through [Delete] and through [RemovePoolSnapshot]. *)
Example positive_status_two_conventions :
  snd (Delete (counting_lib 1) io0 "obj" (start 0%nat)) = Returns (RadosError 1) /\
  snd (RemovePoolSnapshot (counting_pool_lib 1 some_stat) io0 "s1" (start 0%nat))
    = Returns nil_error.
Proof. split; reflexivity. Qed.
